(** * Camera: a lazily evaluated transform cache

    Shallow embedding of [src/world/Camera.ts]: the [DirtyMatrix] bitmask,
    the [Camera] base class with its cached [world], [view], [projection]
    and [viewProjection] getters, and the [PerspectiveCamera] and
    [OrthographicCamera] subclasses.

    The vector, quaternion and matrix primitives come from the external
    package [@uon/math]; they are taken as an interface ([Scalar],
    [MathLib]) and every result below holds for all implementations of
    it. *)

From Stdlib Require Import ZArith List String Bool Lia.
From Stdlib Require Import Reals Lra.
Import ListNotations.

Local Open Scope Z_scope.

(** ** JavaScript bitwise operators on numbers

    [|], [&] and [~] convert their operands with ToInt32 and produce a
    signed 32-bit result. *)

Definition ToInt32 (z : Z) : Z := (z + 2 ^ 31) mod 2 ^ 32 - 2 ^ 31.

Definition js_or (a b : Z) : Z := ToInt32 (Z.lor (ToInt32 a) (ToInt32 b)).
Definition js_and (a b : Z) : Z := ToInt32 (Z.land (ToInt32 a) (ToInt32 b)).
Definition js_not (a : Z) : Z := ToInt32 (Z.lnot (ToInt32 a)).
Definition js_shl (a b : Z) : Z := ToInt32 (Z.shiftl (ToInt32 a) (b mod 32)).

(** [x != 0] on numbers. *)
Definition js_ne0 (x : Z) : bool := negb (x =? 0).

(** In conversion problems these are unfolded last: an equation between
    two states rarely needs the arithmetic of the mask. *)
Strategy 100 [ToInt32 js_or js_and js_not js_shl].

(** ** [enum DirtyMatrix] *)

Module DirtyMatrix.
Definition World : Z := js_shl 1 0.
Definition View : Z := js_shl 1 1.
Definition Projection : Z := js_shl 1 2.
Definition All : Z := js_or (js_or World View) Projection.
End DirtyMatrix.

(** ** The interface of [@uon/math] used by the camera *)

(** Numbers: the literals that occur in the source, [*], [/], [Math.tan],
    [Math.atan], and the library's [ToDegrees] and [ToRadians]. *)
Class Scalar (num : Type) := {
  lit_0 : num;
  lit_1 : num;
  lit_2 : num;
  lit_0_5 : num;
  lit_50 : num;
  lit_1e_6 : num;
  lit_1e27 : num;
  num_mul : num -> num -> num;
  num_div : num -> num -> num;
  Math_tan : num -> num;
  Math_atan : num -> num;
  ToDegrees : num -> num;
  ToRadians : num -> num
}.

(** Vectors, quaternions and matrices.  A method that overwrites its
    receiver ([compose], [inverse], [fromAxisAngle], [fromRotationMatrix],
    [makePerspective], [makeOrthographic], [identity]) is a function of its
    arguments; a method that combines the receiver with its arguments
    ([add], [multiplyScalar], [applyQuaternion], [multiply], [lookAt])
    takes the receiver first.  [copy] and [clone] are value copies and are
    modelled by assignment. *)
Class MathLib (num : Type) := {
  Vector3 : Type;
  Quaternion : Type;
  Matrix4 : Type;
  Frustum : Type;
  Vector3_new : Vector3;
  Vector3_UnitY : Vector3;
  Vector3_One : Vector3;
  Vector3_add : Vector3 -> Vector3 -> Vector3;
  Vector3_multiplyScalar : Vector3 -> num -> Vector3;
  Vector3_applyQuaternion : Vector3 -> Quaternion -> Vector3;
  Quaternion_new : num -> num -> num -> num -> Quaternion;
  Quaternion_multiply : Quaternion -> Quaternion -> Quaternion;
  Quaternion_fromAxisAngle : Vector3 -> num -> Quaternion;
  Quaternion_fromRotationMatrix : Matrix4 -> Quaternion;
  Matrix4_new : Matrix4;
  Matrix4_identity : Matrix4;
  Matrix4_compose : Vector3 -> Quaternion -> Vector3 -> Matrix4;
  Matrix4_inverse : Matrix4 -> Matrix4;
  Matrix4_multiply : Matrix4 -> Matrix4 -> Matrix4;
  Matrix4_lookAt : Matrix4 -> Vector3 -> Vector3 -> Vector3 -> Matrix4;
  Matrix4_makePerspective : num -> num -> num -> num -> Matrix4;
  Matrix4_makeOrthographic :
    num -> num -> num -> num -> num -> num -> Matrix4;
  Frustum_new : Frustum
}.

(** ** Fields added by the subclasses *)

Module Perspective.
Record fields (num : Type) : Type := mk {
  _fov : num;
  _aspect : num;
  _near : num;
  _far : num;
  _zoom : num
}.
Arguments mk {num}.
Arguments _fov {num}.
Arguments _aspect {num}.
Arguments _near {num}.
Arguments _far {num}.
Arguments _zoom {num}.
End Perspective.

Module Orthographic.
Record fields (num : Type) : Type := mk {
  _left : num;
  _right : num;
  _top : num;
  _bottom : num;
  _near : num;
  _far : num;
  _zoom : num
}.
Arguments mk {num}.
Arguments _left {num}.
Arguments _right {num}.
Arguments _top {num}.
Arguments _bottom {num}.
Arguments _near {num}.
Arguments _far {num}.
Arguments _zoom {num}.
End Orthographic.

(** The run-time class of an instance; [updateProjection] is dispatched
    on it. *)
Inductive Subclass (num : Type) : Type :=
| IsCamera
| IsPerspectiveCamera (p : Perspective.fields num)
| IsOrthographicCamera (o : Orthographic.fields num).
Arguments IsCamera {num}.
Arguments IsPerspectiveCamera {num}.
Arguments IsOrthographicCamera {num}.

Section Model.

Context {num : Type} {SC : Scalar num} {ML : MathLib num}.

(** Calls into [Matrix4] made on the four cached matrices.  The list
    [calls] of an instance is ghost state: it records, oldest first, the
    matrix computations performed so far. *)
Inductive Call : Type :=
| Call_compose (t : Vector3) (q : Quaternion) (s : Vector3)
| Call_inverse (m : Matrix4)
| Call_copy (m : Matrix4)
| Call_multiply (a b : Matrix4)
| Call_makePerspective (fov aspect near far : num)
| Call_makeOrthographic (left right top bottom near far : num).

(** ** [class Camera] *)

Record Camera : Type := mkCamera {
  _translation : Vector3;
  _orientation : Quaternion;
  _up : Vector3;
  _world : Matrix4;
  _view : Matrix4;
  _projection : Matrix4;
  _viewproj : Matrix4;
  _frustum : Frustum;
  dirtyFlag : Z;
  subclass : Subclass num;
  calls : list Call
}.

Definition with_translation (v : Vector3) (c : Camera) : Camera :=
  mkCamera v (_orientation c) (_up c) (_world c) (_view c) (_projection c)
    (_viewproj c) (_frustum c) (dirtyFlag c) (subclass c) (calls c).

Definition with_orientation (q : Quaternion) (c : Camera) : Camera :=
  mkCamera (_translation c) q (_up c) (_world c) (_view c) (_projection c)
    (_viewproj c) (_frustum c) (dirtyFlag c) (subclass c) (calls c).

Definition with_world (m : Matrix4) (c : Camera) : Camera :=
  mkCamera (_translation c) (_orientation c) (_up c) m (_view c)
    (_projection c) (_viewproj c) (_frustum c) (dirtyFlag c) (subclass c)
    (calls c).

Definition with_view (m : Matrix4) (c : Camera) : Camera :=
  mkCamera (_translation c) (_orientation c) (_up c) (_world c) m
    (_projection c) (_viewproj c) (_frustum c) (dirtyFlag c) (subclass c)
    (calls c).

Definition with_projection (m : Matrix4) (c : Camera) : Camera :=
  mkCamera (_translation c) (_orientation c) (_up c) (_world c) (_view c)
    m (_viewproj c) (_frustum c) (dirtyFlag c) (subclass c) (calls c).

Definition with_viewproj (m : Matrix4) (c : Camera) : Camera :=
  mkCamera (_translation c) (_orientation c) (_up c) (_world c) (_view c)
    (_projection c) m (_frustum c) (dirtyFlag c) (subclass c) (calls c).

Definition with_dirtyFlag (f : Z) (c : Camera) : Camera :=
  mkCamera (_translation c) (_orientation c) (_up c) (_world c) (_view c)
    (_projection c) (_viewproj c) (_frustum c) f (subclass c) (calls c).

Definition with_subclass (s : Subclass num) (c : Camera) : Camera :=
  mkCamera (_translation c) (_orientation c) (_up c) (_world c) (_view c)
    (_projection c) (_viewproj c) (_frustum c) (dirtyFlag c) s (calls c).

Definition record_call (e : Call) (c : Camera) : Camera :=
  mkCamera (_translation c) (_orientation c) (_up c) (_world c) (_view c)
    (_projection c) (_viewproj c) (_frustum c) (dirtyFlag c) (subclass c)
    (calls c ++ [e]).

(** ** Methods: state passing with exceptions

    A method call on [this] either completes normally with a value and
    the instance as the call left it, or throws; a [throw] does not undo
    the assignments made before it. *)

Inductive Completion (A : Type) : Type :=
| Normal (a : A) (this : Camera)
| Throw (e : string) (this : Camera).
Arguments Normal {A}.
Arguments Throw {A}.

Definition Method (A : Type) : Type := Camera -> Completion A.

Definition ret {A : Type} (a : A) : Method A := fun this => Normal a this.

Definition bind {A B : Type} (m : Method A) (k : A -> Method B) : Method B :=
  fun this =>
    match m this with
    | Normal a this' => k a this'
    | Throw e this' => Throw e this'
    end.

Definition throw {A : Type} (e : string) : Method A :=
  fun this => Throw e this.

Definition read {A : Type} (f : Camera -> A) : Method A :=
  fun this => Normal (f this) this.

Definition assign (f : Camera -> Camera) : Method unit :=
  fun this => Normal tt (f this).

Definition when (b : bool) (m : Method unit) : Method unit :=
  if b then m else ret tt.

(** The instance a call leaves behind, and the value it returned. *)
Definition after {A : Type} (r : Completion A) : Camera :=
  match r with Normal _ c => c | Throw _ c => c end.

Definition returned {A : Type} (r : Completion A) : option A :=
  match r with Normal a _ => Some a | Throw _ _ => None end.

Definition outcome {A : Type} (r : Completion A) : A + string :=
  match r with Normal a _ => inl a | Throw e _ => inr e end.

Notation "x <- m ;; k" := (bind m (fun x => k))
  (at level 61, m at next level, right associativity).
Notation "m ;;; k" := (bind m (fun _ => k))
  (at level 61, right associativity).

Definition set_bits (bits : Z) (this : Camera) : Camera :=
  with_dirtyFlag (js_or (dirtyFlag this) bits) this.

Definition clear_bits (bits : Z) (this : Camera) : Camera :=
  with_dirtyFlag (js_and (dirtyFlag this) (js_not bits)) this.

(** [constructor()] with the field initialiser
    [dirtyFlag = DirtyMatrix.All]. *)
Definition new_Camera : Camera :=
  {| _translation := Vector3_new;
     _orientation := Quaternion_new lit_0 lit_0 lit_0 lit_1;
     _up := Vector3_UnitY;
     _world := Matrix4_new;
     _view := Matrix4_new;
     _projection := Matrix4_new;
     _viewproj := Matrix4_new;
     _frustum := Frustum_new;
     dirtyFlag := DirtyMatrix.All;
     subclass := IsCamera;
     calls := [] |}.

(** [set dirty(val)] *)
Definition set_dirty (val : bool) : Method unit :=
  assign (set_bits
    (if val then js_or DirtyMatrix.World DirtyMatrix.View else 0)).

(** [get world()] *)
Definition get_world : Method Matrix4 :=
  flag <- read dirtyFlag ;;
  when (js_ne0 (js_and flag DirtyMatrix.World))
    (t <- read _translation ;;
     q <- read _orientation ;;
     assign (fun this =>
       record_call (Call_compose t q Vector3_One)
         (with_world (Matrix4_compose t q Vector3_One) this)) ;;;
     assign (clear_bits DirtyMatrix.World)) ;;;
  read _world.

(** [get view()] *)
Definition get_view : Method Matrix4 :=
  flag <- read dirtyFlag ;;
  when (js_ne0
          (js_and flag (js_or DirtyMatrix.World DirtyMatrix.View)))
    (w <- get_world ;;
     assign (fun this =>
       record_call (Call_inverse w) (with_view (Matrix4_inverse w) this)) ;;;
     assign (clear_bits DirtyMatrix.View)) ;;;
  read _view.

(** [Camera.updateProjection()]: [throw 'Not Implemented']. *)
Definition Camera_updateProjection : Method unit :=
  throw "Not Implemented"%string.

(** [PerspectiveCamera.updateProjection()] *)
Definition effective_fov (p : Perspective.fields num) : num :=
  ToDegrees
    (num_mul lit_2
       (Math_atan
          (num_div
             (Math_tan (num_mul (ToRadians (Perspective._fov p)) lit_0_5))
             (Perspective._zoom p)))).

Definition PerspectiveCamera_updateProjection
    (p : Perspective.fields num) : Method unit :=
  let fov := effective_fov p in
  assign (fun this =>
    record_call
      (Call_makePerspective fov (Perspective._aspect p)
         (Perspective._near p) (Perspective._far p))
      (with_projection
         (Matrix4_makePerspective fov (Perspective._aspect p)
            (Perspective._near p) (Perspective._far p)) this)).

(** [OrthographicCamera.updateProjection()] *)
Definition OrthographicCamera_updateProjection
    (o : Orthographic.fields num) : Method unit :=
  let zoom := Orthographic._zoom o in
  let l := num_mul (Orthographic._left o) zoom in
  let r := num_mul (Orthographic._right o) zoom in
  let t := num_mul (Orthographic._top o) zoom in
  let b := num_mul (Orthographic._bottom o) zoom in
  assign (fun this =>
    record_call
      (Call_makeOrthographic l r t b
         (Orthographic._near o) (Orthographic._far o))
      (with_projection
         (Matrix4_makeOrthographic l r t b
            (Orthographic._near o) (Orthographic._far o)) this)).

(** [this.updateProjection()]: the override of the instance's class. *)
Definition updateProjection : Method unit :=
  fun this =>
    match subclass this with
    | IsCamera => Camera_updateProjection this
    | IsPerspectiveCamera p => PerspectiveCamera_updateProjection p this
    | IsOrthographicCamera o => OrthographicCamera_updateProjection o this
    end.

(** [get projection()] *)
Definition get_projection : Method Matrix4 :=
  flag <- read dirtyFlag ;;
  when (js_ne0 (js_and flag DirtyMatrix.Projection))
    (updateProjection ;;;
     assign (clear_bits DirtyMatrix.Projection)) ;;;
  read _projection.

(** [get viewProjection()].  In
    [this._viewproj.copy(this.view).multiply(this.projection)] the
    [view] getter runs and is copied before the [projection] getter
    runs. *)
Definition get_viewProjection : Method Matrix4 :=
  flag <- read dirtyFlag ;;
  when (0 <? flag)
    (v <- get_view ;;
     assign (fun this => record_call (Call_copy v) (with_viewproj v this)) ;;;
     p <- get_projection ;;
     assign (fun this =>
       record_call (Call_multiply (_viewproj this) p)
         (with_viewproj (Matrix4_multiply (_viewproj this) p) this))) ;;;
  read _viewproj.

(** [get translation()], [get orientation()] *)
Definition get_translation : Method Vector3 := read _translation.
Definition get_orientation : Method Quaternion := read _orientation.

(** [set translation(vec3)] *)
Definition set_translation (vec3 : Vector3) : Method unit :=
  assign (with_translation vec3) ;;;
  assign (set_bits (js_or DirtyMatrix.World DirtyMatrix.View)).

(** [set orientation(quat)] *)
Definition set_orientation (quat : Quaternion) : Method unit :=
  assign (with_orientation quat) ;;;
  assign (set_bits (js_or DirtyMatrix.World DirtyMatrix.View)).

(** [TEMP_VEC3], [TEMP_QUAT] and [TEMP_MATRIX4] are module-level scratch
    objects.  Every use below overwrites the scratch object before
    reading it ([copy], [fromAxisAngle], [identity]), and they are not
    exported, so no argument can alias them: a call does not depend on
    what an earlier call left there, and they are local names here. *)

(** [translate(axis, distance)] *)
Definition translate (axis : Vector3) (distance : num) : Method unit :=
  q <- read _orientation ;;
  let TEMP_VEC3 := Vector3_applyQuaternion axis q in
  let TEMP_VEC3 := Vector3_multiplyScalar TEMP_VEC3 distance in
  assign (fun this =>
    with_translation (Vector3_add (_translation this) TEMP_VEC3) this) ;;;
  assign (set_bits (js_or DirtyMatrix.World DirtyMatrix.View)).

(** [rotate(axis, angle)] *)
Definition rotate (axis : Vector3) (angle : num) : Method unit :=
  let TEMP_QUAT := Quaternion_fromAxisAngle axis angle in
  assign (fun this =>
    with_orientation (Quaternion_multiply (_orientation this) TEMP_QUAT)
      this) ;;;
  assign (set_bits (js_or DirtyMatrix.World DirtyMatrix.View)).

(** [lookAt(point)] *)
Definition lookAt (point : Vector3) : Method unit :=
  let m := Matrix4_identity in
  t <- read _translation ;;
  up <- read _up ;;
  let m := Matrix4_lookAt m t point up in
  assign (with_orientation (Quaternion_fromRotationMatrix m)) ;;;
  assign (set_bits (js_or DirtyMatrix.World DirtyMatrix.View)).

(** ** [class PerspectiveCamera extends Camera] *)

(** An optional constructor argument: [x !== undefined ? x : d]. *)
Definition or_default (x : option num) (d : num) : num :=
  match x with Some v => v | None => d end.

Definition new_PerspectiveCamera (fov aspect near far : option num)
  : Camera :=
  with_subclass
    (IsPerspectiveCamera
       {| Perspective._fov := or_default fov lit_50;
          Perspective._aspect := or_default aspect lit_1;
          Perspective._near := or_default near lit_1e_6;
          Perspective._far := or_default far lit_1e27;
          Perspective._zoom := lit_1 |})
    new_Camera.

(** An accessor of a subclass exists on instances of that subclass only.
    On any other instance the assignment is ill-typed; at run time it
    would create an unrelated own property and touch nothing here. *)
Definition perspective_setter
    (f : Perspective.fields num -> Perspective.fields num) : Method unit :=
  fun this =>
    match subclass this with
    | IsPerspectiveCamera p =>
        (assign (with_subclass (IsPerspectiveCamera (f p))) ;;;
         assign (set_bits DirtyMatrix.Projection)) this
    | _ => ret tt this
    end.

Definition PerspectiveCamera_set_fov (val : num) : Method unit :=
  perspective_setter (fun p =>
    Perspective.mk val (Perspective._aspect p) (Perspective._near p)
      (Perspective._far p) (Perspective._zoom p)).

Definition PerspectiveCamera_set_aspect (val : num) : Method unit :=
  perspective_setter (fun p =>
    Perspective.mk (Perspective._fov p) val (Perspective._near p)
      (Perspective._far p) (Perspective._zoom p)).

Definition PerspectiveCamera_set_zoom (val : num) : Method unit :=
  perspective_setter (fun p =>
    Perspective.mk (Perspective._fov p) (Perspective._aspect p)
      (Perspective._near p) (Perspective._far p) val).

Definition PerspectiveCamera_set_near (val : num) : Method unit :=
  perspective_setter (fun p =>
    Perspective.mk (Perspective._fov p) (Perspective._aspect p) val
      (Perspective._far p) (Perspective._zoom p)).

Definition PerspectiveCamera_set_far (val : num) : Method unit :=
  perspective_setter (fun p =>
    Perspective.mk (Perspective._fov p) (Perspective._aspect p)
      (Perspective._near p) val (Perspective._zoom p)).

(** ** [class OrthographicCamera extends Camera] *)

Definition new_OrthographicCamera (left right top bottom : num)
    (near far : option num) : Camera :=
  with_subclass
    (IsOrthographicCamera
       {| Orthographic._left := left;
          Orthographic._right := right;
          Orthographic._top := top;
          Orthographic._bottom := bottom;
          Orthographic._near := or_default near lit_1e_6;
          Orthographic._far := or_default far lit_1e27;
          Orthographic._zoom := lit_1 |})
    new_Camera.

Definition orthographic_setter
    (f : Orthographic.fields num -> Orthographic.fields num)
  : Method unit :=
  fun this =>
    match subclass this with
    | IsOrthographicCamera o =>
        (assign (with_subclass (IsOrthographicCamera (f o))) ;;;
         assign (set_bits DirtyMatrix.Projection)) this
    | _ => ret tt this
    end.

Definition OrthographicCamera_set_left (val : num) : Method unit :=
  orthographic_setter (fun o =>
    Orthographic.mk val (Orthographic._right o) (Orthographic._top o)
      (Orthographic._bottom o) (Orthographic._near o)
      (Orthographic._far o) (Orthographic._zoom o)).

Definition OrthographicCamera_set_right (val : num) : Method unit :=
  orthographic_setter (fun o =>
    Orthographic.mk (Orthographic._left o) val (Orthographic._top o)
      (Orthographic._bottom o) (Orthographic._near o)
      (Orthographic._far o) (Orthographic._zoom o)).

Definition OrthographicCamera_set_top (val : num) : Method unit :=
  orthographic_setter (fun o =>
    Orthographic.mk (Orthographic._left o) (Orthographic._right o) val
      (Orthographic._bottom o) (Orthographic._near o)
      (Orthographic._far o) (Orthographic._zoom o)).

Definition OrthographicCamera_set_bottom (val : num) : Method unit :=
  orthographic_setter (fun o =>
    Orthographic.mk (Orthographic._left o) (Orthographic._right o)
      (Orthographic._top o) val (Orthographic._near o)
      (Orthographic._far o) (Orthographic._zoom o)).

Definition OrthographicCamera_set_zoom (val : num) : Method unit :=
  orthographic_setter (fun o =>
    Orthographic.mk (Orthographic._left o) (Orthographic._right o)
      (Orthographic._top o) (Orthographic._bottom o)
      (Orthographic._near o) (Orthographic._far o) val).

Definition OrthographicCamera_set_near (val : num) : Method unit :=
  orthographic_setter (fun o =>
    Orthographic.mk (Orthographic._left o) (Orthographic._right o)
      (Orthographic._top o) (Orthographic._bottom o) val
      (Orthographic._far o) (Orthographic._zoom o)).

Definition OrthographicCamera_set_far (val : num) : Method unit :=
  orthographic_setter (fun o =>
    Orthographic.mk (Orthographic._left o) (Orthographic._right o)
      (Orthographic._top o) (Orthographic._bottom o)
      (Orthographic._near o) val (Orthographic._zoom o)).

(** ** Client programs

    What a client can do with an instance through its public members.
    A client that catches an exception goes on with the instance as the
    failed call left it.  The getters [translation] and [orientation]
    hand out the instance's own vector and quaternion; a client that
    writes into those objects changes the instance behind the mask, which
    is not one of the calls below. *)

Inductive TransformMutator : Type :=
| Set_translation (vec3 : Vector3)
| Set_orientation (quat : Quaternion)
| Do_translate (axis : Vector3) (distance : num)
| Do_rotate (axis : Vector3) (angle : num)
| Do_lookAt (point : Vector3)
| Set_dirty_true.

Inductive ProjectionSetter : Type :=
| Set_fov (val : num)
| Set_aspect (val : num)
| Set_near (val : num)
| Set_far (val : num)
| Set_zoom (val : num)
| Set_left (val : num)
| Set_right (val : num)
| Set_top (val : num)
| Set_bottom (val : num).

Inductive Read : Type :=
| Get_world
| Get_view
| Get_projection
| Get_viewProjection.

Inductive Action : Type :=
| Mutate (m : TransformMutator)
| Configure (s : ProjectionSetter)
| Set_dirty_false
| Access (r : Read).

Definition mutate (m : TransformMutator) : Method unit :=
  match m with
  | Set_translation vec3 => set_translation vec3
  | Set_orientation quat => set_orientation quat
  | Do_translate axis distance => translate axis distance
  | Do_rotate axis angle => rotate axis angle
  | Do_lookAt point => lookAt point
  | Set_dirty_true => set_dirty true
  end.

(** [zoom], [near] and [far] are declared by both subclasses; the
    accessor that runs is that of the instance's class, the other one
    does nothing. *)
Definition configure (s : ProjectionSetter) : Method unit :=
  match s with
  | Set_fov val => PerspectiveCamera_set_fov val
  | Set_aspect val => PerspectiveCamera_set_aspect val
  | Set_near val =>
      PerspectiveCamera_set_near val ;;; OrthographicCamera_set_near val
  | Set_far val =>
      PerspectiveCamera_set_far val ;;; OrthographicCamera_set_far val
  | Set_zoom val =>
      PerspectiveCamera_set_zoom val ;;; OrthographicCamera_set_zoom val
  | Set_left val => OrthographicCamera_set_left val
  | Set_right val => OrthographicCamera_set_right val
  | Set_top val => OrthographicCamera_set_top val
  | Set_bottom val => OrthographicCamera_set_bottom val
  end.

Definition access (r : Read) : Method Matrix4 :=
  match r with
  | Get_world => get_world
  | Get_view => get_view
  | Get_projection => get_projection
  | Get_viewProjection => get_viewProjection
  end.

Definition perform (a : Action) (this : Camera) : Camera :=
  match a with
  | Mutate m => after (mutate m this)
  | Configure s => after (configure s this)
  | Set_dirty_false => after (set_dirty false this)
  | Access r => after (access r this)
  end.

Definition run (prog : list Action) (this : Camera) : Camera :=
  fold_left (fun c a => perform a c) prog this.

(** The three ways to construct an instance. *)
Inductive Construction : Type :=
| New_Camera
| New_PerspectiveCamera (fov aspect near far : option num)
| New_OrthographicCamera (left right top bottom : num)
    (near far : option num).

Definition construct (k : Construction) : Camera :=
  match k with
  | New_Camera => new_Camera
  | New_PerspectiveCamera fov aspect near far =>
      new_PerspectiveCamera fov aspect near far
  | New_OrthographicCamera l r t b near far =>
      new_OrthographicCamera l r t b near far
  end.

(** ** Vocabulary of the properties *)

(** The values of the bitmask. *)
Definition mask_ok (f : Z) : Prop := 0 <= f <= 7.

(** [has bit f] is the test [(f & bit) != 0] the getters make. *)
Definition has (bit f : Z) : bool := js_ne0 (js_and f bit).

Definition bit_set (bit : Z) (this : Camera) : bool :=
  has bit (dirtyFlag this).

Definition WorldView : Z := js_or DirtyMatrix.World DirtyMatrix.View.

(** The accessors each class declares. *)
Definition declares (sub : Subclass num) (s : ProjectionSetter) : bool :=
  match sub, s with
  | IsCamera, _ => false
  | IsPerspectiveCamera _,
    (Set_fov _ | Set_aspect _ | Set_near _ | Set_far _ | Set_zoom _) => true
  | IsPerspectiveCamera _, _ => false
  | IsOrthographicCamera _, (Set_fov _ | Set_aspect _) => false
  | IsOrthographicCamera _, _ => true
  end.

(** The cache is coherent when the mask is a set of the three bits,
    every matrix whose bit is clear holds what its getter would compute,
    the View bit is never clear while the World bit is set, and an
    instance of the base class has its Projection bit set. *)
Definition coherent (c : Camera) : Prop :=
  mask_ok (dirtyFlag c) /\
  (bit_set DirtyMatrix.World c = false ->
     _world c
     = Matrix4_compose (_translation c) (_orientation c) Vector3_One) /\
  (bit_set DirtyMatrix.View c = false ->
     bit_set DirtyMatrix.World c = false /\
     _view c = Matrix4_inverse (_world c)) /\
  (subclass c = IsCamera -> bit_set DirtyMatrix.Projection c = true).

(** The number of [multiply] calls in a call list. *)
Definition count_multiply (l : list Call) : nat :=
  List.length (filter (fun e => match e with Call_multiply _ _ => true
                                      | _ => false end) l).

(** ** The parameter getters of the subclasses *)

Inductive ProjectionParameter : Type :=
| Param_fov
| Param_aspect
| Param_near
| Param_far
| Param_zoom
| Param_left
| Param_right
| Param_top
| Param_bottom.

(** [get fov()], [get aspect()], [get zoom()], [get near()], [get far()]
    of [PerspectiveCamera] and [get left()], [get right()], [get top()],
    [get bottom()], [get zoom()], [get near()], [get far()] of
    [OrthographicCamera]: each returns the private field.  [None] is
    [undefined], what reading a property the instance's class does not
    declare gives. *)
Definition get_parameter (x : ProjectionParameter) : Method (option num) :=
  read (fun this =>
    match subclass this with
    | IsCamera => None
    | IsPerspectiveCamera p =>
        match x with
        | Param_fov => Some (Perspective._fov p)
        | Param_aspect => Some (Perspective._aspect p)
        | Param_near => Some (Perspective._near p)
        | Param_far => Some (Perspective._far p)
        | Param_zoom => Some (Perspective._zoom p)
        | _ => None
        end
    | IsOrthographicCamera o =>
        match x with
        | Param_left => Some (Orthographic._left o)
        | Param_right => Some (Orthographic._right o)
        | Param_top => Some (Orthographic._top o)
        | Param_bottom => Some (Orthographic._bottom o)
        | Param_near => Some (Orthographic._near o)
        | Param_far => Some (Orthographic._far o)
        | Param_zoom => Some (Orthographic._zoom o)
        | _ => None
        end
    end).

(** The parameter a setter writes and the value it is given. *)
Definition parameter_of (s : ProjectionSetter) : ProjectionParameter :=
  match s with
  | Set_fov _ => Param_fov
  | Set_aspect _ => Param_aspect
  | Set_near _ => Param_near
  | Set_far _ => Param_far
  | Set_zoom _ => Param_zoom
  | Set_left _ => Param_left
  | Set_right _ => Param_right
  | Set_top _ => Param_top
  | Set_bottom _ => Param_bottom
  end.


(** ** More vocabulary *)

(** The matrix [updateProjection] builds from the fields of a concrete
    subclass. *)
Definition projection_matrix (sub : Subclass num) : option Matrix4 :=
  match sub with
  | IsCamera => None
  | IsPerspectiveCamera p =>
      Some (Matrix4_makePerspective (effective_fov p)
              (Perspective._aspect p) (Perspective._near p)
              (Perspective._far p))
  | IsOrthographicCamera o =>
      let zoom := Orthographic._zoom o in
      Some (Matrix4_makeOrthographic
              (num_mul (Orthographic._left o) zoom)
              (num_mul (Orthographic._right o) zoom)
              (num_mul (Orthographic._top o) zoom)
              (num_mul (Orthographic._bottom o) zoom)
              (Orthographic._near o) (Orthographic._far o))
  end.

(** The translation and the orientation a transform mutator leaves. *)
Definition moved (m : TransformMutator) (c : Camera)
  : Vector3 * Quaternion :=
  let t := _translation c in
  let q := _orientation c in
  match m with
  | Set_translation vec3 => (vec3, q)
  | Set_orientation quat => (t, quat)
  | Do_translate axis distance =>
      (Vector3_add t
         (Vector3_multiplyScalar (Vector3_applyQuaternion axis q) distance),
       q)
  | Do_rotate axis angle =>
      (t, Quaternion_multiply q (Quaternion_fromAxisAngle axis angle))
  | Do_lookAt point =>
      (t,
       Quaternion_fromRotationMatrix
         (Matrix4_lookAt Matrix4_identity t point (_up c)))
  | Set_dirty_true => (t, q)
  end.

(** The projection cache is coherent when a clear Projection bit means
    the cached matrix is the one [updateProjection] builds from the
    current fields; the combined cache, when an empty mask means the
    combined matrix is the product of the cached view and projection. *)
Definition projection_coherent (c : Camera) : Prop :=
  bit_set DirtyMatrix.Projection c = false ->
  Some (_projection c) = projection_matrix (subclass c).

Definition combined_coherent (c : Camera) : Prop :=
  dirtyFlag c = 0 ->
  _viewproj c = Matrix4_multiply (_view c) (_projection c).

(** Kinds of actions and of recorded calls. *)
Definition is_read (a : Action) : bool :=
  match a with Access _ => true | _ => false end.

Definition is_mutation (a : Action) : bool :=
  match a with Mutate _ => true | _ => false end.

Definition is_configuration (a : Action) : bool :=
  match a with Configure _ => true | _ => false end.

Definition is_viewProjection_read (a : Action) : bool :=
  match a with Access Get_viewProjection => true | _ => false end.

(** A program that reads [view] and [projection] only through
    [viewProjection]. *)
Definition reads_combined_only (a : Action) : bool :=
  match a with
  | Access Get_view | Access Get_projection => false
  | _ => true
  end.

Definition is_compose (e : Call) : bool :=
  match e with Call_compose _ _ _ => true | _ => false end.

Definition is_inverse (e : Call) : bool :=
  match e with Call_inverse _ => true | _ => false end.

Definition is_make (e : Call) : bool :=
  match e with
  | Call_makePerspective _ _ _ _ => true
  | Call_makeOrthographic _ _ _ _ _ _ => true
  | _ => false
  end.

Definition is_multiply (e : Call) : bool :=
  match e with Call_multiply _ _ => true | _ => false end.

Definition count_calls (k : Call -> bool) (l : list Call) : nat :=
  List.length (filter k l).

Definition count_actions (k : Action -> bool) (prog : list Action) : nat :=
  List.length (filter k prog).

(** Work done and work owed: the calls of one kind made so far, plus one
    if the bit that would trigger the next one is set. *)
Definition charged (k : Call -> bool) (bit : Z) (c : Camera) : nat :=
  (count_calls k (calls c) + (if bit_set bit c then 1 else 0))%nat.

(** A step conserves the charges when it only turns owed work into done
    work, and multiplies at most [n] times. *)
Definition conserves (n : nat) (c c' : Camera) : Prop :=
  charged is_compose DirtyMatrix.World c'
  = charged is_compose DirtyMatrix.World c
  /\ charged is_inverse DirtyMatrix.View c'
     = charged is_inverse DirtyMatrix.View c
  /\ charged is_make DirtyMatrix.Projection c'
     = charged is_make DirtyMatrix.Projection c
  /\ (count_calls is_multiply (calls c')
      <= count_calls is_multiply (calls c) + n)%nat.

End Model.

Arguments Normal {num ML A}.
Arguments Throw {num ML A}.

(** ** Two implementations of the interface *)

(** The free implementation: numbers, vectors, quaternions and matrices
    are the expressions that build them, so a run of the camera shows
    which library operations produced each matrix.  [compose] knows one
    equation, the one the default camera needs: composing the zero
    translation, the identity rotation and the unit scale gives the
    identity matrix. *)
Module Sym.

(** [Lit m e] is the decimal literal [m * 10^e]. *)
Inductive num : Type :=
| Lit (m e : Z)
| Mul (a b : num)
| Div (a b : num)
| Tan (a : num)
| Atan (a : num)
| Deg (a : num)
| Rad (a : num).

Inductive vec : Type :=
| Vnew
| VUnitY
| VOne
| Vxyz (x y z : num)
| Vadd (a b : vec)
| Vscale (a : vec) (s : num)
| Vrot (a : vec) (q : quat)
with quat : Type :=
| Qnew (x y z w : num)
| Qmul (a b : quat)
| QaxisAngle (axis : vec) (angle : num)
| QfromMatrix (m : mat)
with mat : Type :=
| Mnew
| Midentity
| Mcompose (t : vec) (q : quat) (s : vec)
| Minverse (m : mat)
| Mmul (a b : mat)
| MlookAt (m : mat) (eye target up : vec)
| Mperspective (fov aspect near far : num)
| Morthographic (l r t b near far : num).

Definition compose (t : vec) (q : quat) (s : vec) : mat :=
  match t, q, s with
  | Vnew, Qnew (Lit 0 0) (Lit 0 0) (Lit 0 0) (Lit 1 0), VOne => Midentity
  | _, _, _ => Mcompose t q s
  end.

#[export] Instance scalar : Scalar num := {|
  lit_0 := Lit 0 0;
  lit_1 := Lit 1 0;
  lit_2 := Lit 2 0;
  lit_0_5 := Lit 5 (-1);
  lit_50 := Lit 50 0;
  lit_1e_6 := Lit 1 (-6);
  lit_1e27 := Lit 1 27;
  num_mul := Mul;
  num_div := Div;
  Math_tan := Tan;
  Math_atan := Atan;
  ToDegrees := Deg;
  ToRadians := Rad
|}.

#[export] Instance lib : MathLib num := {|
  Vector3 := vec;
  Quaternion := quat;
  Matrix4 := mat;
  Frustum := unit;
  Vector3_new := Vnew;
  Vector3_UnitY := VUnitY;
  Vector3_One := VOne;
  Vector3_add := Vadd;
  Vector3_multiplyScalar := Vscale;
  Vector3_applyQuaternion := Vrot;
  Quaternion_new := Qnew;
  Quaternion_multiply := Qmul;
  Quaternion_fromAxisAngle := QaxisAngle;
  Quaternion_fromRotationMatrix := QfromMatrix;
  Matrix4_new := Mnew;
  Matrix4_identity := Midentity;
  Matrix4_compose := compose;
  Matrix4_inverse := Minverse;
  Matrix4_multiply := Mmul;
  Matrix4_lookAt := MlookAt;
  Matrix4_makePerspective := Mperspective;
  Matrix4_makeOrthographic := Morthographic;
  Frustum_new := tt
|}.

End Sym.

(** Three instances over the free implementation, one per class, as their
    constructors leave them. *)
Module Demo.

Definition camera : @Camera Sym.num Sym.lib :=
  new_Camera (SC := Sym.scalar).

Definition perspective : @Camera Sym.num Sym.lib :=
  new_PerspectiveCamera (SC := Sym.scalar) None None None None.

Definition orthographic : @Camera Sym.num Sym.lib :=
  new_OrthographicCamera (SC := Sym.scalar)
    (Sym.Lit (-1) 0) (Sym.Lit 1 0) (Sym.Lit 1 0) (Sym.Lit (-1) 0)
    None None.

(** A client program that only writes. *)
Definition writes : list (@Action Sym.num Sym.lib) :=
  [Mutate (Do_translate (ML := Sym.lib) Sym.VUnitY (Sym.Lit 1 0));
   Configure (Set_zoom (Sym.Lit 2 0));
   Set_dirty_false].

End Demo.

(** Ideal numbers: JavaScript's doubles read as the reals they round,
    used for the two numeric scenarios. *)
Module Ideal.

Local Open Scope R_scope.

(** Modelled from the spec: [ToDegrees] and [ToRadians] belong to
    [@uon/math] and are not in the source tree; the spec has the
    effective field of view computed in radians and reported in degrees,
    so they are the conversions between radians and degrees.  The
    literals and [*], [/], [Math.tan], [Math.atan] are those of the
    reals. *)
#[export] Instance scalar : Scalar R := {|
  lit_0 := 0;
  lit_1 := 1;
  lit_2 := 2;
  lit_0_5 := 5 / 10;
  lit_50 := 50;
  lit_1e_6 := 1 / 10 ^ 6;
  lit_1e27 := 10 ^ 27;
  num_mul := Rmult;
  num_div := Rdiv;
  Math_tan := tan;
  Math_atan := atan;
  ToDegrees := fun x => x * 180 / PI;
  ToRadians := fun x => x * PI / 180
|}.

End Ideal.

(** * [DrawArraysCommand]

    The command draws a vertex buffer with the program currently bound.
    The WebGL context is an effect: [call] is modelled by the list of
    commands it issues, in order.  The vertex buffer is an object the
    command shares with whoever created it, so the command holds a
    reference and the heap gives the buffer's state at each moment. *)
Module DrawArrays.

Section Command.

(** JS numbers, and the objects the command only passes on. *)
Context {num WebGLBuffer VertexLayout VertexInput ShaderProgram : Type}.
Context (zero : num).
Context (location : VertexInput -> num).
Context (inputs : ShaderProgram -> list VertexInput).





Inductive GlCall : Type :=
| Gl_disableVertexAttribArray (index : num)
| Gl_bindBuffer (target : num) (buffer : WebGLBuffer)
| Call_BindAttributes (current_program : ShaderProgram)
    (layout : VertexLayout)
| Gl_drawArrays (mode first count : num).



(** What a call issued, and whether it returned or threw the [TypeError]
    of reading a property of null. *)
Inductive Outcome : Type :=
| Returned (issued : list GlCall)
| TypeError (issued : list GlCall).

Definition issued (o : Outcome) : list GlCall :=
  match o with Returned l | TypeError l => l end.



End Command.

End DrawArrays.

(** * Properties *)

Section Properties.

Context {num : Type} {SC : Scalar num} {ML : MathLib num}.

(** ** The bitmask *)

Lemma mask_cases (f : Z) :
  mask_ok f ->
  f = 0 \/ f = 1 \/ f = 2 \/ f = 3 \/ f = 4 \/ f = 5 \/ f = 6 \/ f = 7.
Proof. unfold mask_ok; lia. Qed.

Ltac each_mask f H :=
  apply mask_cases in H;
  destruct H as [H|[H|[H|[H|[H|[H|[H|H]]]]]]]; subst f.

Ltac mask_table :=
  let f := fresh "f" in
  let H := fresh "H" in
  intros f H; each_mask f H; vm_compute; intuition congruence.

Lemma mask_All : mask_ok DirtyMatrix.All /\ DirtyMatrix.All = 7.
Proof. vm_compute. intuition congruence. Qed.

(** [f |= World | View] *)
Lemma raise_WorldView :
  forall f, mask_ok f ->
    mask_ok (js_or f WorldView) /\
    has DirtyMatrix.World (js_or f WorldView) = true /\
    has DirtyMatrix.View (js_or f WorldView) = true /\
    has WorldView (js_or f WorldView) = true /\
    has DirtyMatrix.Projection (js_or f WorldView)
      = has DirtyMatrix.Projection f.
Proof. mask_table. Qed.

(** [f |= Projection] *)
Lemma raise_Projection :
  forall f, mask_ok f ->
    mask_ok (js_or f DirtyMatrix.Projection) /\
    has DirtyMatrix.World (js_or f DirtyMatrix.Projection)
      = has DirtyMatrix.World f /\
    has DirtyMatrix.View (js_or f DirtyMatrix.Projection)
      = has DirtyMatrix.View f /\
    has WorldView (js_or f DirtyMatrix.Projection) = has WorldView f /\
    has DirtyMatrix.Projection (js_or f DirtyMatrix.Projection) = true.
Proof. mask_table. Qed.

(** [f |= 0] *)
Lemma raise_nothing : forall f, mask_ok f -> js_or f 0 = f.
Proof. mask_table. Qed.

(** [f &= ~World] *)
Lemma lower_World :
  forall f, mask_ok f ->
    let f' := js_and f (js_not DirtyMatrix.World) in
    mask_ok f' /\
    has DirtyMatrix.World f' = false /\
    has DirtyMatrix.View f' = has DirtyMatrix.View f /\
    has DirtyMatrix.Projection f' = has DirtyMatrix.Projection f.
Proof. mask_table. Qed.

(** [f &= ~View] *)
Lemma lower_View :
  forall f, mask_ok f ->
    let f' := js_and f (js_not DirtyMatrix.View) in
    mask_ok f' /\
    has DirtyMatrix.World f' = has DirtyMatrix.World f /\
    has DirtyMatrix.View f' = false /\
    has DirtyMatrix.Projection f' = has DirtyMatrix.Projection f.
Proof. mask_table. Qed.

(** [f &= ~Projection] *)
Lemma lower_Projection :
  forall f, mask_ok f ->
    let f' := js_and f (js_not DirtyMatrix.Projection) in
    mask_ok f' /\
    has DirtyMatrix.World f' = has DirtyMatrix.World f /\
    has DirtyMatrix.View f' = has DirtyMatrix.View f /\
    has WorldView f' = has WorldView f /\
    has DirtyMatrix.Projection f' = false.
Proof. mask_table. Qed.

(** The three tests the getters make, in terms of the single bits. *)
Lemma has_WorldView :
  forall f, mask_ok f ->
    has WorldView f = has DirtyMatrix.World f || has DirtyMatrix.View f.
Proof. mask_table. Qed.

Lemma positive_mask :
  forall f, mask_ok f ->
    (0 <? f) = has DirtyMatrix.World f || has DirtyMatrix.View f
               || has DirtyMatrix.Projection f.
Proof. mask_table. Qed.

Lemma empty_mask :
  forall f, mask_ok f ->
    has DirtyMatrix.World f = false ->
    has DirtyMatrix.View f = false ->
    has DirtyMatrix.Projection f = false ->
    f = 0.
Proof. mask_table. Qed.

(** ** The getters, branch by branch *)

Lemma get_world_clean (c : Camera) :
  bit_set DirtyMatrix.World c = false ->
  get_world c = Normal (_world c) c.
Proof.
  unfold get_world, bit_set, has, bind, read, when. intros ->.
  reflexivity.
Qed.

Lemma get_world_dirty (c : Camera) :
  bit_set DirtyMatrix.World c = true ->
  let w := Matrix4_compose (_translation c) (_orientation c) Vector3_One in
  get_world c
  = Normal w
      (clear_bits DirtyMatrix.World
         (record_call
            (Call_compose (_translation c) (_orientation c) Vector3_One)
            (with_world w c))).
Proof.
  unfold get_world, bit_set, has, bind, read, when. intros ->.
  reflexivity.
Qed.

Lemma get_view_clean (c : Camera) :
  bit_set WorldView c = false ->
  get_view c = Normal (_view c) c.
Proof.
  unfold get_view, bit_set, has, WorldView, bind, read, when. intros ->.
  reflexivity.
Qed.

Lemma get_view_dirty (c c1 : Camera) (w : Matrix4) :
  bit_set WorldView c = true ->
  get_world c = Normal w c1 ->
  get_view c
  = Normal (Matrix4_inverse w)
      (clear_bits DirtyMatrix.View
         (record_call (Call_inverse w)
            (with_view (Matrix4_inverse w) c1))).
Proof.
  unfold get_view, bit_set, has, WorldView, bind, read, when.
  intros -> Hw. rewrite Hw. reflexivity.
Qed.

Lemma get_projection_clean (c : Camera) :
  bit_set DirtyMatrix.Projection c = false ->
  get_projection c = Normal (_projection c) c.
Proof.
  unfold get_projection, bit_set, has, bind, read, when. intros ->.
  reflexivity.
Qed.

Lemma get_projection_dirty (c c1 : Camera) :
  bit_set DirtyMatrix.Projection c = true ->
  updateProjection c = Normal tt c1 ->
  get_projection c
  = Normal (_projection c1) (clear_bits DirtyMatrix.Projection c1).
Proof.
  unfold get_projection, bit_set, has, bind, read, when.
  intros -> Hu. rewrite Hu. reflexivity.
Qed.

Lemma get_projection_throws (c c1 : Camera) (e : string) :
  bit_set DirtyMatrix.Projection c = true ->
  updateProjection c = Throw e c1 ->
  get_projection c = Throw e c1.
Proof.
  unfold get_projection, bit_set, has, bind, read, when.
  intros -> Hu. rewrite Hu. reflexivity.
Qed.

Lemma get_viewProjection_clean (c : Camera) :
  (0 <? dirtyFlag c) = false ->
  get_viewProjection c = Normal (_viewproj c) c.
Proof.
  unfold get_viewProjection, bind, read, when. intros ->.
  reflexivity.
Qed.

Lemma get_viewProjection_dirty (c c1 c2 : Camera) (v p : Matrix4) :
  (0 <? dirtyFlag c) = true ->
  get_view c = Normal v c1 ->
  get_projection (record_call (Call_copy v) (with_viewproj v c1))
  = Normal p c2 ->
  _viewproj c2 = v ->
  get_viewProjection c
  = Normal (Matrix4_multiply v p)
      (record_call (Call_multiply v p)
         (with_viewproj (Matrix4_multiply v p) c2)).
Proof.
  unfold get_viewProjection, bind, read, when, assign.
  intros -> Hv Hp Hvp. rewrite Hv, Hp, Hvp. reflexivity.
Qed.

Lemma get_viewProjection_throws (c c1 c2 : Camera) (v : Matrix4)
    (e : string) :
  (0 <? dirtyFlag c) = true ->
  get_view c = Normal v c1 ->
  get_projection (record_call (Call_copy v) (with_viewproj v c1))
  = Throw e c2 ->
  get_viewProjection c = Throw e c2.
Proof.
  unfold get_viewProjection, bind, read, when, assign.
  intros -> Hv Hp. rewrite Hv, Hp. reflexivity.
Qed.

(** ** Coherence is an invariant of every client program *)

Ltac unfold_methods :=
  cbn [perform mutate configure access construct
       set_dirty set_translation set_orientation translate rotate lookAt
       perspective_setter orthographic_setter
       PerspectiveCamera_set_fov PerspectiveCamera_set_aspect
       PerspectiveCamera_set_zoom PerspectiveCamera_set_near
       PerspectiveCamera_set_far
       OrthographicCamera_set_left OrthographicCamera_set_right
       OrthographicCamera_set_top OrthographicCamera_set_bottom
       OrthographicCamera_set_zoom OrthographicCamera_set_near
       OrthographicCamera_set_far
       updateProjection Camera_updateProjection
       PerspectiveCamera_updateProjection
       OrthographicCamera_updateProjection
       new_Camera new_PerspectiveCamera new_OrthographicCamera
       bind ret read assign when throw after returned outcome
       set_bits clear_bits
       with_translation with_orientation with_world with_view
       with_projection with_viewproj with_dirtyFlag with_subclass
       record_call
       _translation _orientation _up _world _view _projection _viewproj
       _frustum dirtyFlag subclass calls].

Lemma has_All :
  has DirtyMatrix.World DirtyMatrix.All = true
  /\ has DirtyMatrix.View DirtyMatrix.All = true
  /\ has DirtyMatrix.Projection DirtyMatrix.All = true.
Proof. vm_compute. intuition congruence. Qed.

Lemma coherent_construct (k : Construction) : coherent (construct k).
Proof.
  destruct mask_All as [Hok _]. destruct has_All as (HW & HV & HP).
  unfold coherent, bit_set.
  destruct k; unfold_methods; rewrite HW, HV, HP;
    (split; [exact Hok|]); repeat split; discriminate.
Qed.

Lemma coherent_after_transform (c c' : Camera) :
  coherent c ->
  dirtyFlag c' = js_or (dirtyFlag c) WorldView ->
  subclass c' = subclass c ->
  coherent c'.
Proof.
  unfold coherent, bit_set. intros (Hf & _ & _ & Hb) Hd Hs.
  destruct (raise_WorldView _ Hf) as (Hok & HW & HV & _ & HP).
  rewrite Hd, Hs, HW, HV, HP.
  repeat split; try discriminate; try apply Hok. exact Hb.
Qed.

Lemma coherent_after_setter (c c' : Camera) :
  coherent c ->
  dirtyFlag c' = js_or (dirtyFlag c) DirtyMatrix.Projection ->
  _translation c' = _translation c ->
  _orientation c' = _orientation c ->
  _world c' = _world c ->
  _view c' = _view c ->
  coherent c'.
Proof.
  unfold coherent, bit_set. intros (Hf & Hw & Hv & _) Hd Ht Hq Hwo Hvi.
  destruct (raise_Projection _ Hf) as (Hok & HW & HV & _ & HP).
  rewrite Hd, Ht, Hq, Hwo, Hvi, HW, HV, HP.
  split; [exact Hok | split; [exact Hw | split; [exact Hv | reflexivity]]].
Qed.

Lemma coherent_mutate (m : TransformMutator) (c : Camera) :
  coherent c -> coherent (after (mutate m c)).
Proof.
  intros H. apply coherent_after_transform with (c := c); trivial;
    destruct m; reflexivity.
Qed.

Lemma coherent_configure (s : ProjectionSetter) (c : Camera) :
  coherent c -> coherent (after (configure s c)).
Proof.
  intros H. destruct c as [t q up w v p vp fr f sub log].
  destruct s, sub; unfold_methods; try exact H;
    (eapply coherent_after_setter; [exact H | reflexivity ..]).
Qed.

Ltac fields :=
  cbn [_translation _orientation _up _world _view _projection _viewproj
       _frustum dirtyFlag subclass calls] in *.

Ltac unfold_all :=
  unfold coherent, bit_set in *; unfold_methods; fields.

Ltac conjs := repeat match goal with |- _ /\ _ => split end.

Ltac finish :=
  conjs; intros; conjs; trivial; try discriminate; try congruence.

(** A [world] read on a coherent cache. *)
Lemma get_world_coherent (c : Camera) :
  coherent c ->
  exists c1,
    get_world c
    = Normal
        (Matrix4_compose (_translation c) (_orientation c) Vector3_One) c1
    /\ coherent c1
    /\ bit_set DirtyMatrix.World c1 = false
    /\ bit_set DirtyMatrix.View c1 = bit_set DirtyMatrix.View c
    /\ bit_set DirtyMatrix.Projection c1
        = bit_set DirtyMatrix.Projection c
    /\ _translation c1 = _translation c
    /\ _orientation c1 = _orientation c
    /\ _world c1
        = Matrix4_compose (_translation c) (_orientation c) Vector3_One
    /\ _projection c1 = _projection c
    /\ _viewproj c1 = _viewproj c
    /\ subclass c1 = subclass c.
Proof.
  intros H. destruct (bit_set DirtyMatrix.World c) eqn:E.
  - rewrite (get_world_dirty c E). cbv zeta.
    eexists; split; [reflexivity|].
    destruct c as [t q up w v p vp fr f sub log].
    unfold_all. fields.
    destruct H as (Hf & Hw & Hv & Hb).
    destruct (lower_World _ Hf) as (Hok & HW & HV & HP).
    cbv zeta in Hok, HW, HV, HP. rewrite HW, HV, HP.
    conjs; trivial.
    intros Hv'. apply Hv in Hv'. destruct Hv' as [Hv' _]. congruence.
  - rewrite (get_world_clean c E).
    pose proof H as (Hf & Hw & Hv & Hb). rewrite <- (Hw E).
    exists c. conjs; trivial.
Qed.

(** A [view] read on a coherent cache. *)
Lemma get_view_coherent (c : Camera) :
  coherent c ->
  exists c2,
    get_view c
    = Normal
        (Matrix4_inverse
           (Matrix4_compose (_translation c) (_orientation c) Vector3_One))
        c2
    /\ coherent c2
    /\ bit_set DirtyMatrix.World c2 = false
    /\ bit_set DirtyMatrix.View c2 = false
    /\ bit_set DirtyMatrix.Projection c2
        = bit_set DirtyMatrix.Projection c
    /\ _translation c2 = _translation c
    /\ _orientation c2 = _orientation c
    /\ _world c2
        = Matrix4_compose (_translation c) (_orientation c) Vector3_One
    /\ _view c2 = Matrix4_inverse (_world c2)
    /\ _projection c2 = _projection c
    /\ _viewproj c2 = _viewproj c
    /\ subclass c2 = subclass c.
Proof.
  intros H. destruct (bit_set WorldView c) eqn:E.
  - destruct (get_world_coherent c H)
      as (c1 & Hg & Hc1 & HW1 & HV1 & HP1 & Ht & Hq & Hw1 & Hp1 & Hvp1 & Hs1).
    rewrite (get_view_dirty c c1 _ E Hg).
    eexists; split; [reflexivity|].
    destruct c1 as [t q up w v p vp fr f sub log].
    unfold_all. fields.
    destruct Hc1 as (Hf & Hw & Hv & Hb).
    destruct (lower_View _ Hf) as (Hok & HW & HV & HP).
    cbv zeta in Hok, HW, HV, HP. rewrite HW, HV, HP, HW1.
    subst. conjs; trivial. intros _. split; congruence.
  - rewrite (get_view_clean c E).
    pose proof H as (Hf & Hw & Hv & Hb).
    unfold bit_set in *. rewrite (has_WorldView _ Hf) in E.
    apply orb_false_iff in E. destruct E as [EW EV].
    destruct (Hv EV) as [_ Hvi]. rewrite <- (Hw EW), <- Hvi.
    exists c. conjs; trivial.
Qed.

(** ** Reads on any instance whose mask is a set of the three bits *)

Lemma count_multiply_app (l : list Call) (e : Call) :
  count_multiply (l ++ [e])
  = (count_multiply l
     + match e with Call_multiply _ _ => 1 | _ => 0 end)%nat.
Proof.
  unfold count_multiply. rewrite filter_app, length_app.
  destruct e; reflexivity.
Qed.

Lemma get_world_effect (c : Camera) :
  mask_ok (dirtyFlag c) ->
  exists w c1,
    get_world c = Normal w c1
    /\ _world c1 = w
    /\ (bit_set DirtyMatrix.World c = true ->
          w = Matrix4_compose (_translation c) (_orientation c) Vector3_One
          /\ calls c1
             = calls c
               ++ [Call_compose (_translation c) (_orientation c)
                     Vector3_One])
    /\ (bit_set DirtyMatrix.World c = false -> c1 = c)
    /\ mask_ok (dirtyFlag c1)
    /\ bit_set DirtyMatrix.World c1 = false
    /\ bit_set DirtyMatrix.View c1 = bit_set DirtyMatrix.View c
    /\ bit_set DirtyMatrix.Projection c1
        = bit_set DirtyMatrix.Projection c
    /\ _translation c1 = _translation c
    /\ _orientation c1 = _orientation c
    /\ _view c1 = _view c
    /\ _projection c1 = _projection c
    /\ _viewproj c1 = _viewproj c
    /\ subclass c1 = subclass c
    /\ count_multiply (calls c1) = count_multiply (calls c).
Proof.
  intros Hf. destruct (bit_set DirtyMatrix.World c) eqn:E.
  - rewrite (get_world_dirty c E). cbv zeta.
    do 2 eexists; split; [reflexivity|].
    destruct c as [t q up w v p vp fr f sub log]. unfold_all.
    destruct (lower_World _ Hf) as (Hok & HW & HV & HP).
    cbv zeta in Hok, HW, HV, HP. rewrite HW, HV, HP.
    finish.
    rewrite count_multiply_app. apply Nat.add_0_r.
  - rewrite (get_world_clean c E).
    exists (_world c), c. finish.
Qed.

Lemma get_view_effect (c : Camera) :
  mask_ok (dirtyFlag c) ->
  exists v c2,
    get_view c = Normal v c2
    /\ _view c2 = v
    /\ (bit_set WorldView c = true ->
          v = Matrix4_inverse (_world c2)
          /\ calls c2
             = calls (after (get_world c)) ++ [Call_inverse (_world c2)])
    /\ (bit_set WorldView c = false -> c2 = c)
    /\ mask_ok (dirtyFlag c2)
    /\ bit_set DirtyMatrix.World c2 = false
    /\ bit_set DirtyMatrix.View c2 = false
    /\ bit_set DirtyMatrix.Projection c2
        = bit_set DirtyMatrix.Projection c
    /\ _translation c2 = _translation c
    /\ _orientation c2 = _orientation c
    /\ _world c2 = _world (after (get_world c))
    /\ _projection c2 = _projection c
    /\ _viewproj c2 = _viewproj c
    /\ subclass c2 = subclass c
    /\ count_multiply (calls c2) = count_multiply (calls c).
Proof.
  intros Hf.
  destruct (get_world_effect c Hf)
    as (w & c1 & Hg & Hw1 & Hd1 & Hc1 & Hf1 & HW1 & HV1 & HP1 & Ht1 & Hq1
        & Hv1 & Hp1 & Hvp1 & Hs1 & Hn1).
  destruct (bit_set WorldView c) eqn:E.
  - rewrite (get_view_dirty c c1 w E Hg), Hg.
    do 2 eexists; split; [reflexivity|].
    destruct c1 as [t q up w' v p vp fr f sub log]. unfold_all.
    destruct (lower_View _ Hf1) as (Hok & HW & HV & HP).
    cbv zeta in Hok, HW, HV, HP. rewrite HW, HV, HP.
    subst. finish.
    rewrite count_multiply_app, <- Hn1. apply Nat.add_0_r.
  - rewrite (get_view_clean c E).
    unfold bit_set in *. rewrite (has_WorldView _ Hf) in E.
    apply orb_false_iff in E. destruct E as [EW EV].
    rewrite (Hc1 EW) in *.
    exists (_view c), c. finish. rewrite Hg. reflexivity.
Qed.

Lemma updateProjection_base (c : Camera) :
  subclass c = IsCamera ->
  updateProjection c = Throw "Not Implemented"%string c.
Proof. unfold updateProjection. intros ->. reflexivity. Qed.

Lemma updateProjection_concrete (sub : Subclass num) :
  sub <> IsCamera ->
  exists m e,
    count_multiply [e] = 0%nat
    /\ forall c, subclass c = sub ->
         updateProjection c
         = Normal tt (record_call e (with_projection m c)).
Proof.
  intros Hs. destruct sub; [congruence | |];
    do 2 eexists; (split; [|intros c Hc; unfold updateProjection;
                              rewrite Hc; reflexivity]); reflexivity.
Qed.

Lemma get_projection_effect (c : Camera) :
  mask_ok (dirtyFlag c) ->
  let c' := after (get_projection c) in
  mask_ok (dirtyFlag c')
  /\ bit_set DirtyMatrix.World c' = bit_set DirtyMatrix.World c
  /\ bit_set DirtyMatrix.View c' = bit_set DirtyMatrix.View c
  /\ _translation c' = _translation c
  /\ _orientation c' = _orientation c
  /\ _world c' = _world c
  /\ _view c' = _view c
  /\ _viewproj c' = _viewproj c
  /\ subclass c' = subclass c
  /\ count_multiply (calls c') = count_multiply (calls c)
  /\ (bit_set DirtyMatrix.Projection c = false ->
        get_projection c = Normal (_projection c) c)
  /\ (subclass c <> IsCamera ->
        get_projection c = Normal (_projection c') c'
        /\ bit_set DirtyMatrix.Projection c' = false)
  /\ (subclass c = IsCamera ->
        bit_set DirtyMatrix.Projection c = true ->
        get_projection c = Throw "Not Implemented"%string c).
Proof.
  intros Hf. destruct (bit_set DirtyMatrix.Projection c) eqn:E.
  - destruct (subclass c) as [|pfs|ofs] eqn:Es.
    + rewrite (get_projection_throws c c _ E (updateProjection_base c Es)).
      cbv zeta. cbn [after]. finish.
    + destruct (updateProjection_concrete (subclass c))
        as (m & e & He & Hu); [congruence|].
      rewrite (get_projection_dirty c _ E (Hu c eq_refl)).
      cbv zeta. cbn [after].
      destruct c as [t q up w v p vp fr f sub log]. unfold_all.
      destruct (lower_Projection _ Hf) as (Hok & HW & HV & _ & HP).
      cbv zeta in Hok, HW, HV, HP. rewrite HW, HV, HP.
      finish.
      rewrite count_multiply_app.
      unfold count_multiply in He. destruct e; try discriminate He;
        apply Nat.add_0_r.
    + destruct (updateProjection_concrete (subclass c))
        as (m & e & He & Hu); [congruence|].
      rewrite (get_projection_dirty c _ E (Hu c eq_refl)).
      cbv zeta. cbn [after].
      destruct c as [t q up w v p vp fr f sub log]. unfold_all.
      destruct (lower_Projection _ Hf) as (Hok & HW & HV & _ & HP).
      cbv zeta in Hok, HW, HV, HP. rewrite HW, HV, HP.
      finish.
      rewrite count_multiply_app.
      unfold count_multiply in He. destruct e; try discriminate He;
        apply Nat.add_0_r.
  - rewrite (get_projection_clean c E). cbv zeta. cbn [after].
    finish.
Qed.

Lemma get_projection_ignores_viewproj (c : Camera) (m : Matrix4)
    (e : Call) :
  returned (get_projection (record_call e (with_viewproj m c)))
  = returned (get_projection c).
Proof.
  destruct c as [t q up w v p vp fr f sub log].
  unfold get_projection, updateProjection. unfold_methods. fields.
  destruct (js_ne0 (js_and f DirtyMatrix.Projection)); destruct sub;
    reflexivity.
Qed.

(** The [projection] read that follows the copy of the view matrix. *)
Lemma get_projection_after_copy (c2 : Camera) (v : Matrix4) :
  mask_ok (dirtyFlag c2) ->
  (bit_set DirtyMatrix.Projection c2 = true -> subclass c2 <> IsCamera) ->
  exists p c3,
    get_projection (record_call (Call_copy v) (with_viewproj v c2))
    = Normal p c3
    /\ returned (get_projection c2) = Some p
    /\ mask_ok (dirtyFlag c3)
    /\ bit_set DirtyMatrix.World c3 = bit_set DirtyMatrix.World c2
    /\ bit_set DirtyMatrix.View c3 = bit_set DirtyMatrix.View c2
    /\ bit_set DirtyMatrix.Projection c3 = false
    /\ _viewproj c3 = v
    /\ subclass c3 = subclass c2
    /\ count_multiply (calls c3) = count_multiply (calls c2).
Proof.
  intros Hf Hs.
  destruct (bit_set DirtyMatrix.Projection c2) eqn:E.
  - destruct (updateProjection_concrete (subclass c2) (Hs eq_refl))
      as (m & e & He & Hu).
    rewrite (get_projection_dirty c2 _ E (Hu c2 eq_refl)).
    rewrite (get_projection_dirty
               (record_call (Call_copy v) (with_viewproj v c2)) _ E
               (Hu (record_call (Call_copy v) (with_viewproj v c2))
                  eq_refl)).
    do 2 eexists; split; [reflexivity|].
    destruct c2 as [t q up w v0 p vp fr f sub log]. unfold_all.
    destruct (lower_Projection _ Hf) as (Hok & HW & HV & _ & HP).
    cbv zeta in Hok, HW, HV, HP. rewrite HW, HV, HP.
    finish.
    rewrite !count_multiply_app. unfold count_multiply in He.
    destruct e; try discriminate He. all: lia.
  - rewrite (get_projection_clean c2 E).
    rewrite (get_projection_clean
               (record_call (Call_copy v) (with_viewproj v c2)) E).
    do 2 eexists; split; [reflexivity|].
    destruct c2 as [t q up w v0 p vp fr f sub log]. unfold_all.
    finish. rewrite count_multiply_app. apply Nat.add_0_r.
Qed.

Lemma get_projection_returns (c : Camera) (p : Matrix4) :
  returned (get_projection c) = Some p ->
  bit_set DirtyMatrix.Projection c = true -> subclass c <> IsCamera.
Proof.
  intros Hr HP Hs.
  rewrite (get_projection_throws c c _ HP (updateProjection_base c Hs))
    in Hr.
  discriminate Hr.
Qed.

(** A [viewProjection] read whose [projection] read does not throw. *)
Lemma get_viewProjection_effect (c : Camera) :
  mask_ok (dirtyFlag c) ->
  (bit_set DirtyMatrix.Projection c = true -> subclass c <> IsCamera) ->
  exists v p c',
    returned (get_view c) = Some v
    /\ returned (get_projection (after (get_view c))) = Some p
    /\ ((0 <? dirtyFlag c) = true ->
          get_viewProjection c = Normal (Matrix4_multiply v p) c'
          /\ _viewproj c' = Matrix4_multiply v p
          /\ count_multiply (calls c') = S (count_multiply (calls c)))
    /\ ((0 <? dirtyFlag c) = false ->
          get_viewProjection c = Normal (_viewproj c) c /\ c' = c)
    /\ dirtyFlag c' = 0
    /\ subclass c' = subclass c.
Proof.
  intros Hf Hs.
  destruct (get_view_effect c Hf)
    as (v & c2 & Hg & Hv2 & _ & _ & Hf2 & HW2 & HV2 & HP2 & _ & _ & _
        & _ & _ & Hs2 & Hn2).
  destruct (get_projection_after_copy c2 v Hf2)
    as (p & c3 & Hgp & Hp & Hf3 & HW3 & HV3 & HP3 & Hvp3 & Hs3 & Hn3);
    [rewrite HP2, Hs2; exact Hs|].
  assert (Hp' : returned (get_projection (after (get_view c))) = Some p)
    by (rewrite Hg; exact Hp).
  assert (Hv' : returned (get_view c) = Some v)
    by (rewrite Hg; reflexivity).
  destruct (0 <? dirtyFlag c) eqn:E.
  - exists v, p,
      (record_call (Call_multiply v p)
         (with_viewproj (Matrix4_multiply v p) c3)).
    split; [exact Hv'|]. split; [exact Hp'|].
    split; [intros _|split; [discriminate|]].
    + split; [exact (get_viewProjection_dirty c c2 c3 v p E Hg Hgp Hvp3)|].
      split; [reflexivity|].
      cbn [calls record_call with_viewproj].
      rewrite count_multiply_app, Hn3, Hn2. apply Nat.add_1_r.
    + cbn [dirtyFlag subclass record_call with_viewproj]. split.
      * unfold bit_set in *. apply empty_mask.
        -- exact Hf3.
        -- rewrite HW3. exact HW2.
        -- rewrite HV3. exact HV2.
        -- exact HP3.
      * rewrite Hs3. exact Hs2.
  - exists v, p, c.
    split; [exact Hv'|]. split; [exact Hp'|].
    split; [discriminate|].
    split; [intros _; split; [apply get_viewProjection_clean; exact E
                              | reflexivity]|].
    split; [|reflexivity].
    unfold mask_ok in Hf. apply Z.ltb_ge in E. lia.
Qed.

(** ** Coherence is preserved by the reads *)

Lemma coherent_ext (c c' : Camera) :
  coherent c ->
  dirtyFlag c' = dirtyFlag c ->
  _translation c' = _translation c ->
  _orientation c' = _orientation c ->
  _world c' = _world c ->
  _view c' = _view c ->
  subclass c' = subclass c ->
  coherent c'.
Proof.
  unfold coherent, bit_set. intros H -> -> -> -> -> ->. exact H.
Qed.

Lemma coherent_get_projection (c : Camera) :
  coherent c -> coherent (after (get_projection c)).
Proof.
  intros H. pose proof H as (Hf & Hw & Hv & Hb).
  destruct (get_projection_effect c Hf)
    as (Hf' & HW & HV & Ht & Hq & Hwo & Hvi & _ & Hs & _ & _ & Hc & Hth).
  destruct (subclass c) eqn:Es.
  - rewrite (Hth eq_refl (Hb eq_refl)). exact H.
  - unfold coherent. rewrite HW, HV, Ht, Hq, Hwo, Hvi, Hs.
    split; [exact Hf'|split; [exact Hw|split; [exact Hv|discriminate]]].
  - unfold coherent. rewrite HW, HV, Ht, Hq, Hwo, Hvi, Hs.
    split; [exact Hf'|split; [exact Hw|split; [exact Hv|discriminate]]].
Qed.

Lemma coherent_get_viewProjection (c : Camera) :
  coherent c -> coherent (after (get_viewProjection c)).
Proof.
  intros H. destruct (0 <? dirtyFlag c) eqn:E.
  - destruct (get_view_coherent c H) as (c2 & Hg & Hc2 & _).
    set (v := Matrix4_inverse
                (Matrix4_compose (_translation c) (_orientation c)
                   Vector3_One)) in *.
    set (c2' := record_call (Call_copy v) (with_viewproj v c2)).
    assert (Hc2' : coherent c2')
      by (apply coherent_ext with (c := c2); trivial).
    pose proof (coherent_get_projection c2' Hc2') as Hc3.
    destruct (get_projection c2') as [p c3|e c3] eqn:Egp.
    + pose proof Hc2' as (Hf2' & _).
      destruct (get_projection_effect c2' Hf2')
        as (_ & _ & _ & _ & _ & _ & _ & Hvp3 & _).
      rewrite Egp in Hvp3. cbn [after] in Hvp3, Hc3.
      rewrite (get_viewProjection_dirty c c2 c3 v p E Hg Egp Hvp3).
      cbn [after]. apply coherent_ext with (c := c3); trivial.
    + rewrite (get_viewProjection_throws c c2 c3 v e E Hg Egp).
      exact Hc3.
  - rewrite (get_viewProjection_clean c E). exact H.
Qed.

Lemma coherent_access (r : Read) (c : Camera) :
  coherent c -> coherent (after (access r c)).
Proof.
  intros H. destruct r; cbn [access].
  - destruct (get_world_coherent c H) as (c1 & -> & Hc1 & _). exact Hc1.
  - destruct (get_view_coherent c H) as (c2 & -> & Hc2 & _). exact Hc2.
  - apply coherent_get_projection, H.
  - apply coherent_get_viewProjection, H.
Qed.

Lemma coherent_perform (a : Action) (c : Camera) :
  coherent c -> coherent (perform a c).
Proof.
  intros H. destruct a as [m|s| |r]; cbn [perform].
  - apply coherent_mutate, H.
  - apply coherent_configure, H.
  - pose proof H as (Hf & _).
    apply coherent_ext with (c := c); trivial.
    apply (raise_nothing _ Hf).
  - apply coherent_access, H.
Qed.

Lemma coherent_run (prog : list Action) (c : Camera) :
  coherent c -> coherent (run prog c).
Proof.
  revert c. induction prog as [|a prog IH]; intros c H.
  - exact H.
  - change (run (a :: prog) c) with (run prog (perform a c)).
    apply IH, coherent_perform, H.
Qed.

Lemma coherent_reachable (k : Construction) (prog : list Action) :
  coherent (run prog (construct k)).
Proof. apply coherent_run, coherent_construct. Qed.

Lemma has_zero (bit : Z) :
  bit = DirtyMatrix.World \/ bit = DirtyMatrix.View
  \/ bit = DirtyMatrix.Projection ->
  has bit 0 = false.
Proof. intros [->|[->| ->]]; vm_compute; reflexivity. Qed.

(** ** What each getter's result depends on *)

Lemma get_world_depends (c c' : Camera) :
  bit_set DirtyMatrix.World c' = bit_set DirtyMatrix.World c ->
  _translation c' = _translation c ->
  _orientation c' = _orientation c ->
  _world c' = _world c ->
  outcome (get_world c') = outcome (get_world c).
Proof.
  intros HW Ht Hq Hw. destruct (bit_set DirtyMatrix.World c) eqn:E.
  - rewrite (get_world_dirty c E), (get_world_dirty c' HW), Ht, Hq.
    reflexivity.
  - rewrite (get_world_clean c E), (get_world_clean c' HW), Hw.
    reflexivity.
Qed.

Lemma get_view_depends (c c' : Camera) :
  bit_set WorldView c' = bit_set WorldView c ->
  bit_set DirtyMatrix.World c' = bit_set DirtyMatrix.World c ->
  _translation c' = _translation c ->
  _orientation c' = _orientation c ->
  _world c' = _world c ->
  _view c' = _view c ->
  outcome (get_view c') = outcome (get_view c).
Proof.
  intros HWV HW Ht Hq Hw Hv.
  pose proof (get_world_depends c c' HW Ht Hq Hw) as Hout.
  destruct (bit_set WorldView c) eqn:E.
  - destruct (get_world c) as [w c1|e c1] eqn:Hg;
      destruct (get_world c') as [w' c1'|e' c1'] eqn:Hg';
      try discriminate Hout.
    + injection Hout as ->.
      rewrite (get_view_dirty c c1 w E Hg),
        (get_view_dirty c' c1' w HWV Hg').
      reflexivity.
    + unfold get_view, bit_set, has, WorldView, bind, read, when in *.
      rewrite E, HWV, Hg, Hg'. exact Hout.
  - rewrite (get_view_clean c E), (get_view_clean c' HWV), Hv.
    reflexivity.
Qed.

Lemma get_projection_depends (c c' : Camera) :
  bit_set DirtyMatrix.Projection c' = bit_set DirtyMatrix.Projection c ->
  subclass c' = subclass c ->
  _projection c' = _projection c ->
  outcome (get_projection c') = outcome (get_projection c).
Proof.
  intros HP Hs Hp. destruct (bit_set DirtyMatrix.Projection c) eqn:E.
  - destruct (subclass c) eqn:Es.
    + rewrite (get_projection_throws c c _ E (updateProjection_base c Es)).
      rewrite (get_projection_throws c' c' _ HP
                 (updateProjection_base c' Hs)).
      reflexivity.
    + destruct (updateProjection_concrete (subclass c))
        as (m & e & _ & Hu); [congruence|].
      rewrite (get_projection_dirty c _ E (Hu c eq_refl)).
      rewrite (get_projection_dirty c' _ HP
                 (Hu c' (eq_trans Hs (eq_sym Es)))).
      reflexivity.
    + destruct (updateProjection_concrete (subclass c))
        as (m & e & _ & Hu); [congruence|].
      rewrite (get_projection_dirty c _ E (Hu c eq_refl)).
      rewrite (get_projection_dirty c' _ HP
                 (Hu c' (eq_trans Hs (eq_sym Es)))).
      reflexivity.
  - rewrite (get_projection_clean c E), (get_projection_clean c' HP), Hp.
    reflexivity.
Qed.

(** ** What the mutators and the setters change *)

Lemma mutate_effect (m : TransformMutator) (c : Camera) :
  exists c',
    mutate m c = Normal tt c'
    /\ dirtyFlag c' = js_or (dirtyFlag c) WorldView
    /\ subclass c' = subclass c
    /\ _world c' = _world c
    /\ _view c' = _view c
    /\ _projection c' = _projection c
    /\ _viewproj c' = _viewproj c
    /\ calls c' = calls c.
Proof.
  destruct m; unfold_methods; eexists; (split; [reflexivity|]);
    repeat split.
Qed.

Lemma configure_effect (s : ProjectionSetter) (c : Camera) :
  exists c',
    configure s c = Normal tt c'
    /\ dirtyFlag c'
        = (if declares (subclass c) s
           then js_or (dirtyFlag c) DirtyMatrix.Projection
           else dirtyFlag c)
    /\ _translation c' = _translation c
    /\ _orientation c' = _orientation c
    /\ _world c' = _world c
    /\ _view c' = _view c
    /\ _projection c' = _projection c
    /\ _viewproj c' = _viewproj c
    /\ calls c' = calls c
    /\ (subclass c' = IsCamera <-> subclass c = IsCamera).
Proof.
  destruct c as [t q up w v p vp fr f sub log].
  destruct s, sub; unfold_methods; eexists; (split; [reflexivity|]);
    repeat split; discriminate.
Qed.

(** ** Instances of the base class *)

Lemma get_viewProjection_base (c : Camera) :
  mask_ok (dirtyFlag c) ->
  subclass c = IsCamera ->
  bit_set DirtyMatrix.Projection c = true ->
  exists c',
    get_viewProjection c = Throw "Not Implemented"%string c'
    /\ _projection c' = _projection c
    /\ subclass c' = IsCamera
    /\ bit_set DirtyMatrix.Projection c' = true.
Proof.
  intros Hf Hs HP.
  assert (E : (0 <? dirtyFlag c) = true).
  { rewrite (positive_mask _ Hf). unfold bit_set in HP. rewrite HP.
    apply orb_true_r. }
  destruct (get_view_effect c Hf)
    as (v & c2 & Hg & _ & _ & _ & Hf2 & _ & _ & HP2 & _ & _ & _ & Hp2
        & _ & Hs2 & _).
  set (c2' := record_call (Call_copy v) (with_viewproj v c2)).
  assert (Hs2' : subclass c2' = IsCamera) by (rewrite <- Hs; exact Hs2).
  assert (HP2' : bit_set DirtyMatrix.Projection c2' = true)
    by (rewrite <- HP; exact HP2).
  pose proof (get_projection_throws c2' c2' _ HP2'
                (updateProjection_base c2' Hs2')) as Hth.
  exists c2'. split.
  - exact (get_viewProjection_throws c c2 c2' v _ E Hg Hth).
  - split; [exact Hp2|]. split; assumption.
Qed.

Lemma base_perform (a : Action) (c : Camera) :
  coherent c ->
  subclass c = IsCamera ->
  subclass (perform a c) = IsCamera
  /\ _projection (perform a c) = _projection c.
Proof.
  intros H Hs. pose proof H as (Hf & _ & _ & Hb).
  destruct a as [m|s| |[]]; cbn [perform access].
  - destruct (mutate_effect m c) as (c' & -> & _ & Hs' & _ & _ & Hp & _).
    cbn [after]. split; [rewrite Hs'; exact Hs | exact Hp].
  - destruct (configure_effect s c)
      as (c' & -> & _ & _ & _ & _ & _ & Hp & _ & _ & Hs').
    cbn [after]. split; [apply Hs'; exact Hs | exact Hp].
  - split; [exact Hs | reflexivity].
  - destruct (get_world_effect c Hf)
      as (w & c1 & -> & _ & _ & _ & _ & _ & _ & _ & _ & _ & _ & Hp & _
          & Hs1 & _).
    cbn [after]. split; [rewrite Hs1; exact Hs | exact Hp].
  - destruct (get_view_effect c Hf)
      as (v & c2 & -> & _ & _ & _ & _ & _ & _ & _ & _ & _ & _ & Hp & _
          & Hs2 & _).
    cbn [after]. split; [rewrite Hs2; exact Hs | exact Hp].
  - rewrite (get_projection_throws c c _ (Hb Hs)
               (updateProjection_base c Hs)).
    cbn [after]. split; [exact Hs | reflexivity].
  - destruct (get_viewProjection_base c Hf Hs (Hb Hs))
      as (c' & -> & Hp & Hs' & _).
    cbn [after]. split; assumption.
Qed.

Lemma base_run (prog : list Action) (c : Camera) :
  coherent c ->
  subclass c = IsCamera ->
  subclass (run prog c) = IsCamera
  /\ _projection (run prog c) = _projection c.
Proof.
  revert c. induction prog as [|a prog IH]; intros c H Hs.
  - split; [exact Hs | reflexivity].
  - change (run (a :: prog) c) with (run prog (perform a c)).
    destruct (base_perform a c H Hs) as [Hs' Hp'].
    destruct (IH (perform a c) (coherent_perform a c H) Hs') as [Hs2 Hp2].
    split; [exact Hs2 | rewrite Hp2; exact Hp'].
Qed.

(** ** [projection] reads on the two concrete subclasses *)

Lemma get_projection_perspective (c : Camera)
    (p : Perspective.fields num) :
  subclass c = IsPerspectiveCamera p ->
  bit_set DirtyMatrix.Projection c = true ->
  let m := Matrix4_makePerspective (effective_fov p)
             (Perspective._aspect p) (Perspective._near p)
             (Perspective._far p) in
  let e := Call_makePerspective (effective_fov p)
             (Perspective._aspect p) (Perspective._near p)
             (Perspective._far p) in
  get_projection c
  = Normal m
      (clear_bits DirtyMatrix.Projection
         (record_call e (with_projection m c))).
Proof.
  intros Hs HP m e.
  apply (get_projection_dirty c (record_call e (with_projection m c)) HP).
  unfold updateProjection. rewrite Hs. reflexivity.
Qed.

Lemma get_projection_orthographic (c : Camera)
    (o : Orthographic.fields num) :
  subclass c = IsOrthographicCamera o ->
  bit_set DirtyMatrix.Projection c = true ->
  let zoom := Orthographic._zoom o in
  let m := Matrix4_makeOrthographic
             (num_mul (Orthographic._left o) zoom)
             (num_mul (Orthographic._right o) zoom)
             (num_mul (Orthographic._top o) zoom)
             (num_mul (Orthographic._bottom o) zoom)
             (Orthographic._near o) (Orthographic._far o) in
  let e := Call_makeOrthographic
             (num_mul (Orthographic._left o) zoom)
             (num_mul (Orthographic._right o) zoom)
             (num_mul (Orthographic._top o) zoom)
             (num_mul (Orthographic._bottom o) zoom)
             (Orthographic._near o) (Orthographic._far o) in
  get_projection c
  = Normal m
      (clear_bits DirtyMatrix.Projection
         (record_call e (with_projection m c))).
Proof.
  intros Hs HP zoom m e.
  apply (get_projection_dirty c (record_call e (with_projection m c)) HP).
  unfold updateProjection. rewrite Hs. reflexivity.
Qed.

Lemma All_with_Projection :
  has DirtyMatrix.Projection
    (js_or DirtyMatrix.All DirtyMatrix.Projection) = true.
Proof. vm_compute. reflexivity. Qed.

(** A perspective camera constructed with all four arguments, then
    [zoom = z], then a [projection] read. *)
Lemma perspective_zoom_then_read (fov aspect near far z : num) :
  let c := run [Configure (Set_zoom z)]
             (new_PerspectiveCamera (Some fov) (Some aspect) (Some near)
                (Some far)) in
  let p := Perspective.mk fov aspect near far z in
  exists c',
    get_projection c
    = Normal (Matrix4_makePerspective (effective_fov p) aspect near far) c'
    /\ calls c' = [Call_makePerspective (effective_fov p) aspect near far].
Proof.
  intros c p.
  assert (Hs : subclass c = IsPerspectiveCamera p) by reflexivity.
  assert (HP : bit_set DirtyMatrix.Projection c = true)
    by exact All_with_Projection.
  rewrite (get_projection_perspective c p Hs HP).
  eexists. split; reflexivity.
Qed.

(** An orthographic camera constructed with its four bounds, then
    [zoom = z], then a [projection] read. *)
Lemma orthographic_zoom_then_read (l r t b z : num) :
  let c := run [Configure (Set_zoom z)]
             (new_OrthographicCamera l r t b None None) in
  let e := Call_makeOrthographic (num_mul l z) (num_mul r z)
             (num_mul t z) (num_mul b z) lit_1e_6 lit_1e27 in
  exists c',
    get_projection c
    = Normal
        (Matrix4_makeOrthographic (num_mul l z) (num_mul r z)
           (num_mul t z) (num_mul b z) lit_1e_6 lit_1e27) c'
    /\ calls c' = [e].
Proof.
  intros c e.
  set (o := Orthographic.mk l r t b lit_1e_6 lit_1e27 z).
  assert (Hs : subclass c = IsOrthographicCamera o) by reflexivity.
  assert (HP : bit_set DirtyMatrix.Projection c = true)
    by exact All_with_Projection.
  rewrite (get_projection_orthographic c o Hs HP).
  eexists. split; reflexivity.
Qed.

(** ** The claims *)

(** C1.  After any client program, a read of [world] returns
    [compose(translation, orientation, One)] for the translation and
    orientation the instance holds at that read, and leaves them as
    they are.  A freshly constructed instance holds [new Vector3()] and
    [new Quaternion(0, 0, 0, 1)] with all three bits set, so its first
    [world] read returns the identity matrix as soon as the library
    composes the identity from these. *)
Theorem world_read_composes_current_transform :
  (forall (k : Construction) (prog : list Action),
      let c := run prog (construct k) in
      exists c',
        get_world c
        = Normal
            (Matrix4_compose (_translation c) (_orientation c) Vector3_One)
            c'
        /\ _translation c' = _translation c
        /\ _orientation c' = _orientation c
        /\ _world c'
            = Matrix4_compose (_translation c) (_orientation c)
                Vector3_One)
  /\ (forall k : Construction,
        _translation (construct k) = Vector3_new
        /\ _orientation (construct k)
            = Quaternion_new lit_0 lit_0 lit_0 lit_1
        /\ bit_set DirtyMatrix.World (construct k) = true
        /\ bit_set DirtyMatrix.View (construct k) = true
        /\ bit_set DirtyMatrix.Projection (construct k) = true
        /\ (Matrix4_compose Vector3_new
               (Quaternion_new lit_0 lit_0 lit_0 lit_1) Vector3_One
             = Matrix4_identity ->
             returned (get_world (construct k)) = Some Matrix4_identity)).
Proof.
  split.
  - intros k prog c.
    destruct (get_world_coherent c (coherent_reachable k prog))
      as (c' & Hg & _ & _ & _ & _ & Ht & Hq & Hw & _).
    exists c'. repeat split; assumption.
  - intros k. destruct has_All as (HW & HV & HP).
    assert (Hk : _translation (construct k) = Vector3_new
                 /\ _orientation (construct k)
                     = Quaternion_new lit_0 lit_0 lit_0 lit_1
                 /\ dirtyFlag (construct k) = DirtyMatrix.All)
      by (destruct k; repeat split).
    destruct Hk as (Ht & Hq & Hd). unfold bit_set. rewrite Hd.
    repeat split; trivial.
    intros Hid.
    destruct (get_world_coherent _ (coherent_construct k))
      as (c' & Hg & _).
    rewrite Hg, Ht, Hq, Hid. reflexivity.
Qed.

(** C2.  When the World or the View bit is set, a [view] read runs the
    [world] getter (which recomposes the world matrix if its bit is
    set), stores and returns the inverse of the matrix that getter
    returned, and clears the View bit.  After any client program a
    [view] read returns the inverse of the world matrix of the current
    translation and orientation, and both cached matrices agree with
    them afterwards. *)
Theorem view_read_inverts_validated_world :
  (forall c : Camera,
      mask_ok (dirtyFlag c) ->
      bit_set DirtyMatrix.World c = true
      \/ bit_set DirtyMatrix.View c = true ->
      exists w c1 c2,
        get_world c = Normal w c1
        /\ (bit_set DirtyMatrix.World c = true ->
              w = Matrix4_compose (_translation c) (_orientation c)
                    Vector3_One)
        /\ (bit_set DirtyMatrix.World c = false -> w = _world c)
        /\ get_view c = Normal (Matrix4_inverse w) c2
        /\ c2 = clear_bits DirtyMatrix.View
                  (record_call (Call_inverse w)
                     (with_view (Matrix4_inverse w) c1))
        /\ bit_set DirtyMatrix.View c2 = false
        /\ _world c2 = w
        /\ _view c2 = Matrix4_inverse w)
  /\ (forall (k : Construction) (prog : list Action),
        let c := run prog (construct k) in
        exists c2,
          get_view c
          = Normal
              (Matrix4_inverse
                 (Matrix4_compose (_translation c) (_orientation c)
                    Vector3_One))
              c2
          /\ _translation c2 = _translation c
          /\ _orientation c2 = _orientation c
          /\ _world c2
              = Matrix4_compose (_translation c2) (_orientation c2)
                  Vector3_One
          /\ _view c2 = Matrix4_inverse (_world c2)).
Proof.
  split.
  - intros c Hf Hbits.
    destruct (get_world_effect c Hf)
      as (w & c1 & Hg & Hw1 & Hd1 & Hc1 & Hf1 & _).
    assert (E : bit_set WorldView c = true).
    { unfold bit_set in *. rewrite (has_WorldView _ Hf).
      apply orb_true_iff. exact Hbits. }
    exists w, c1,
      (clear_bits DirtyMatrix.View
         (record_call (Call_inverse w)
            (with_view (Matrix4_inverse w) c1))).
    split; [exact Hg|].
    split; [intros HW; apply (Hd1 HW)|].
    split; [intros HW; rewrite <- Hw1, (Hc1 HW); reflexivity|].
    split; [exact (get_view_dirty c c1 w E Hg)|].
    split; [reflexivity|].
    destruct (lower_View _ Hf1) as (_ & _ & HV & _). cbv zeta in HV.
    destruct c1 as [t q up w' v p vp fr f sub log].
    unfold bit_set. unfold_methods. fields.
    repeat split; assumption.
  - intros k prog c.
    destruct (get_view_coherent c (coherent_reachable k prog))
      as (c2 & Hg & _ & _ & _ & _ & Ht & Hq & Hw & Hv & _).
    exists c2. rewrite Ht, Hq. repeat split; assumption.
Qed.

(** C3.  [viewProjection] tests the mask as it is on entry.  With no
    bit set it returns the cached combined matrix and changes nothing.
    With any bit set it multiplies once: when the [view] getter returns
    [v] and the [projection] getter, run after it, returns [p], the
    result is [v * p], exactly one [multiply] call is added, and the
    getters have cleared all three bits, whichever bits were set on
    entry.  On an instance of a concrete subclass both getters do
    return. *)
Theorem viewProjection_tests_mask_on_entry :
  forall c : Camera,
    mask_ok (dirtyFlag c) ->
    (bit_set DirtyMatrix.World c = false ->
     bit_set DirtyMatrix.View c = false ->
     bit_set DirtyMatrix.Projection c = false ->
     get_viewProjection c = Normal (_viewproj c) c)
    /\ (forall v p : Matrix4,
          bit_set DirtyMatrix.World c = true
          \/ bit_set DirtyMatrix.View c = true
          \/ bit_set DirtyMatrix.Projection c = true ->
          returned (get_view c) = Some v ->
          returned (get_projection (after (get_view c))) = Some p ->
          exists c',
            get_viewProjection c = Normal (Matrix4_multiply v p) c'
            /\ _viewproj c' = Matrix4_multiply v p
            /\ count_multiply (calls c') = S (count_multiply (calls c))
            /\ bit_set DirtyMatrix.World c' = false
            /\ bit_set DirtyMatrix.View c' = false
            /\ bit_set DirtyMatrix.Projection c' = false)
    /\ (subclass c <> IsCamera ->
          exists v p,
            returned (get_view c) = Some v
            /\ returned (get_projection (after (get_view c))) = Some p).
Proof.
  intros c Hf. pose proof (positive_mask _ Hf) as Hpos.
  split; [|split].
  - unfold bit_set. intros HW HV HP. rewrite HW, HV, HP in Hpos.
    apply get_viewProjection_clean. exact Hpos.
  - intros v p Hbits Hv Hp.
    assert (E : (0 <? dirtyFlag c) = true).
    { rewrite Hpos. unfold bit_set in Hbits.
      destruct Hbits as [->|[->| ->]]; rewrite ?orb_true_r; reflexivity. }
    assert (Hs : bit_set DirtyMatrix.Projection c = true ->
                 subclass c <> IsCamera).
    { destruct (get_view_effect c Hf)
        as (v' & c2 & Hg & _ & _ & _ & _ & _ & _ & HP2 & _ & _ & _ & _
            & _ & Hs2 & _).
      rewrite Hg in Hp. cbn [after] in Hp.
      rewrite <- HP2, <- Hs2. exact (get_projection_returns c2 p Hp). }
    destruct (get_viewProjection_effect c Hf Hs)
      as (v' & p' & c' & Hv' & Hp' & Hd & _ & H0 & _).
    assert (v' = v) by congruence. assert (p' = p) by congruence.
    subst v' p'.
    destruct (Hd E) as (Hg & Hvp & Hn).
    exists c'. unfold bit_set. rewrite H0.
    repeat split; trivial; apply has_zero; auto.
  - intros Hs.
    destruct (get_viewProjection_effect c Hf (fun _ => Hs))
      as (v & p & c' & Hv & Hp & _).
    exists v, p. split; assumption.
Qed.

(** C4.  Each transform mutator, and [dirty = true], ORs exactly
    [World | View] into the mask: both bits are set afterwards and the
    Projection bit is as before.  Each projection-parameter setter the
    instance's class declares ORs exactly [Projection] into the mask:
    that bit is set afterwards and the World and View bits are as
    before.  So a setter leaves the outcome of the next [world] and
    [view] reads as it was, and a mutator leaves the outcome of the next
    [projection] read as it was. *)
Theorem mutators_and_setters_partition_the_mask :
  forall c : Camera,
    mask_ok (dirtyFlag c) ->
    (forall m : TransformMutator,
        exists c',
          mutate m c = Normal tt c'
          /\ dirtyFlag c' = js_or (dirtyFlag c) WorldView
          /\ bit_set DirtyMatrix.World c' = true
          /\ bit_set DirtyMatrix.View c' = true
          /\ bit_set DirtyMatrix.Projection c'
              = bit_set DirtyMatrix.Projection c
          /\ outcome (get_projection c') = outcome (get_projection c))
    /\ (forall s : ProjectionSetter,
          exists c',
            configure s c = Normal tt c'
            /\ (declares (subclass c) s = true ->
                  dirtyFlag c'
                  = js_or (dirtyFlag c) DirtyMatrix.Projection
                  /\ bit_set DirtyMatrix.Projection c' = true)
            /\ bit_set DirtyMatrix.World c'
                = bit_set DirtyMatrix.World c
            /\ bit_set DirtyMatrix.View c' = bit_set DirtyMatrix.View c
            /\ outcome (get_world c') = outcome (get_world c)
            /\ outcome (get_view c') = outcome (get_view c)).
Proof.
  intros c Hf. split.
  - intros m.
    destruct (mutate_effect m c)
      as (c' & Hm & Hd & Hs & _ & _ & Hp & _).
    destruct (raise_WorldView _ Hf) as (_ & HW & HV & _ & HP).
    exists c'. unfold bit_set. rewrite Hd.
    repeat split; trivial.
    apply get_projection_depends; trivial.
    unfold bit_set. rewrite Hd. exact HP.
  - intros s.
    destruct (configure_effect s c)
      as (c' & Hc & Hd & Ht & Hq & Hw & Hv & _).
    destruct (raise_Projection _ Hf) as (_ & HW & HV & HWV & HP).
    exists c'.
    assert (Hbits : has DirtyMatrix.World (dirtyFlag c')
                    = has DirtyMatrix.World (dirtyFlag c)
                    /\ has DirtyMatrix.View (dirtyFlag c')
                       = has DirtyMatrix.View (dirtyFlag c)
                    /\ has WorldView (dirtyFlag c')
                       = has WorldView (dirtyFlag c)).
    { rewrite Hd. destruct (declares (subclass c) s); auto. }
    destruct Hbits as (HW' & HV' & HWV').
    split; [exact Hc|]. split.
    { intros Hdecl. rewrite Hdecl in Hd. unfold bit_set.
      rewrite Hd. split; [reflexivity | exact HP]. }
    split; [exact HW'|]. split; [exact HV'|]. split.
    + apply get_world_depends; trivial.
    + apply get_view_depends; trivial.
Qed.

(** C5.  On an instance of a concrete subclass, a [viewProjection] read
    leaves no bit set, and a second read right after it returns the same
    matrix and leaves the instance, its call list included, exactly as
    the first read left it. *)
Theorem viewProjection_second_read_is_cached :
  forall c : Camera,
    mask_ok (dirtyFlag c) ->
    subclass c <> IsCamera ->
    exists m c',
      get_viewProjection c = Normal m c'
      /\ bit_set DirtyMatrix.World c' = false
      /\ bit_set DirtyMatrix.View c' = false
      /\ bit_set DirtyMatrix.Projection c' = false
      /\ get_viewProjection c' = Normal m c'.
Proof.
  intros c Hf Hs.
  destruct (get_viewProjection_effect c Hf (fun _ => Hs))
    as (v & p & c' & _ & _ & Hd & Hcl & H0 & _).
  assert (Hclean : get_viewProjection c' = Normal (_viewproj c') c')
    by (apply get_viewProjection_clean; rewrite H0; reflexivity).
  assert (Hbits : bit_set DirtyMatrix.World c' = false
                  /\ bit_set DirtyMatrix.View c' = false
                  /\ bit_set DirtyMatrix.Projection c' = false)
    by (unfold bit_set; rewrite H0; repeat split; apply has_zero; auto).
  destruct Hbits as (HW & HV & HP).
  destruct (0 <? dirtyFlag c) eqn:E.
  - destruct (Hd eq_refl) as (Hg & Hvp & _).
    rewrite Hvp in Hclean.
    exists (Matrix4_multiply v p), c'. repeat split; assumption.
  - destruct (Hcl eq_refl) as (Hg & ->).
    exists (_viewproj c), c. repeat split; assumption.
Qed.

(** C6.  [Camera.updateProjection] throws ['Not Implemented'] and
    changes nothing.  On an instance of the base class whose Projection
    bit is set, a [projection] read and a [viewProjection] read throw
    the same and leave the cached projection matrix as it was.  After
    any client program an instance constructed as a base [Camera] is
    in that situation: both reads throw, and its projection matrix is
    still the one the constructor allocated. *)
Theorem base_updateProjection_is_not_implemented :
  (forall c : Camera,
      Camera_updateProjection c = Throw "Not Implemented"%string c)
  /\ (forall c : Camera,
        subclass c = IsCamera ->
        updateProjection c = Throw "Not Implemented"%string c
        /\ (bit_set DirtyMatrix.Projection c = true ->
              get_projection c = Throw "Not Implemented"%string c)
        /\ (mask_ok (dirtyFlag c) ->
              bit_set DirtyMatrix.Projection c = true ->
              exists c',
                get_viewProjection c = Throw "Not Implemented"%string c'
                /\ _projection c' = _projection c))
  /\ (forall prog : list Action,
        let c := run prog new_Camera in
        subclass c = IsCamera
        /\ bit_set DirtyMatrix.Projection c = true
        /\ outcome (get_projection c) = inr "Not Implemented"%string
        /\ outcome (get_viewProjection c) = inr "Not Implemented"%string
        /\ _projection c = Matrix4_new).
Proof.
  split; [reflexivity|]. split.
  - intros c Hs. split; [exact (updateProjection_base c Hs)|]. split.
    + intros HP.
      exact (get_projection_throws c c _ HP (updateProjection_base c Hs)).
    + intros Hf HP.
      destruct (get_viewProjection_base c Hf Hs HP) as (c' & Hg & Hp & _).
      exists c'. split; assumption.
  - intros prog c.
    pose proof (coherent_reachable New_Camera prog) as H.
    destruct (base_run prog new_Camera (coherent_construct New_Camera)
                eq_refl) as [Hs Hp].
    fold c in H, Hs, Hp. pose proof H as (Hf & _ & _ & Hb).
    split; [exact Hs|]. split; [exact (Hb Hs)|]. split.
    + rewrite (get_projection_throws c c _ (Hb Hs)
                 (updateProjection_base c Hs)).
      reflexivity.
    + split; [|exact Hp].
      destruct (get_viewProjection_base c Hf Hs (Hb Hs)) as (c' & -> & _).
      reflexivity.
Qed.

(** C9.  [dirty = true] sets the World and View bits whatever the mask
    was and leaves the Projection bit as it was, so the next [world]
    read calls [compose] and the next [view] read calls [compose] and
    [inverse]; [dirty = false] leaves the instance, mask included,
    exactly as it was. *)
Theorem dirty_setter_forces_world_and_view :
  forall c : Camera,
    mask_ok (dirtyFlag c) ->
    let w := Matrix4_compose (_translation c) (_orientation c)
               Vector3_One in
    let e := Call_compose (_translation c) (_orientation c) Vector3_One in
    (exists c',
        set_dirty true c = Normal tt c'
        /\ bit_set DirtyMatrix.World c' = true
        /\ bit_set DirtyMatrix.View c' = true
        /\ bit_set DirtyMatrix.Projection c'
            = bit_set DirtyMatrix.Projection c
        /\ (exists c1,
              get_world c' = Normal w c1 /\ calls c1 = calls c ++ [e])
        /\ (exists c2,
              get_view c' = Normal (Matrix4_inverse w) c2
              /\ calls c2 = calls c ++ [e; Call_inverse w]))
    /\ set_dirty false c = Normal tt c.
Proof.
  intros c Hf w e.
  destruct (raise_WorldView _ Hf) as (Hok & HW & HV & HWV & HP).
  split.
  - exists (set_bits WorldView c).
    split; [reflexivity|].
    split; [exact HW|]. split; [exact HV|]. split; [exact HP|].
    pose proof (get_world_dirty (set_bits WorldView c) HW) as Hg.
    cbv zeta in Hg. split.
    + eexists. split; [exact Hg | reflexivity].
    + eexists. split.
      * exact (get_view_dirty (set_bits WorldView c) _ _ HWV Hg).
      * cbn [calls clear_bits set_bits record_call with_view with_world
             with_dirtyFlag].
        rewrite <- app_assoc. reflexivity.
  - unfold set_dirty, assign, set_bits.
    rewrite (raise_nothing _ Hf). destruct c; reflexivity.
Qed.

(** C10.  When [updateProjection] throws, as it does on the base class,
    a [projection] read with the Projection bit set throws the same
    exception and leaves the instance exactly as it was: the bit is
    still set, the cached matrix untouched, and the next read runs
    [updateProjection] again. *)
Theorem projection_read_failure_keeps_state :
  forall (c c1 : Camera) (e : string),
    bit_set DirtyMatrix.Projection c = true ->
    updateProjection c = Throw e c1 ->
    get_projection c = Throw e c
    /\ bit_set DirtyMatrix.Projection (after (get_projection c)) = true
    /\ _projection (after (get_projection c)) = _projection c
    /\ get_projection (after (get_projection c)) = Throw e c.
Proof.
  intros c c1 e HP Hu.
  assert (Hc : c1 = c).
  { unfold updateProjection in Hu.
    destruct (subclass c); [|discriminate Hu..].
    injection Hu as _ <-. reflexivity. }
  subst c1. pose proof (get_projection_throws c c e HP Hu) as Hg.
  rewrite Hg. cbn [after]. repeat split; assumption.
Qed.

(** * Further properties of the camera *)

(** ** What no call changes *)

Ltac unfold_reads :=
  unfold get_viewProjection; unfold get_view, get_projection;
  unfold get_world, updateProjection, Camera_updateProjection,
    PerspectiveCamera_updateProjection, OrthographicCamera_updateProjection,
    bind, read, when, assign, throw, ret.

Ltac split_tests :=
  repeat (fields;
          match goal with
          | |- context [if ?b then _ else _] => destruct b
          | |- context [match ?s with IsCamera => _ | _ => _ end] =>
              destruct s
          end);
  unfold_methods.

Lemma access_frame (r : Read) (c : Camera) :
  let c' := after (access r c) in
  _translation c' = _translation c
  /\ _orientation c' = _orientation c
  /\ _up c' = _up c
  /\ _frustum c' = _frustum c
  /\ subclass c' = subclass c.
Proof.
  destruct c as [t q up w v p vp fr f sub log].
  destruct r; cbn [access]; unfold_reads; split_tests; repeat split.
Qed.

Lemma mutate_frame (m : TransformMutator) (c : Camera) :
  let c' := after (mutate m c) in
  _up c' = _up c /\ _frustum c' = _frustum c /\ subclass c' = subclass c.
Proof. destruct m; repeat split. Qed.

Lemma configure_frame (s : ProjectionSetter) (c : Camera) :
  let c' := after (configure s c) in
  _translation c' = _translation c
  /\ _orientation c' = _orientation c
  /\ _up c' = _up c
  /\ _frustum c' = _frustum c.
Proof.
  destruct c as [t q up w v p vp fr f sub log].
  destruct s, sub; repeat split.
Qed.

Lemma perform_frame (a : Action) (c : Camera) :
  _up (perform a c) = _up c
  /\ _frustum (perform a c) = _frustum c
  /\ (forall s, declares (subclass (perform a c)) s
                = declares (subclass c) s).
Proof.
  destruct a as [m|s| |r]; cbn [perform].
  - destruct (mutate_frame m c) as (Hu & Hf & Hs).
    rewrite Hs. repeat split; assumption.
  - destruct (configure_frame s c) as (_ & _ & Hu & Hf).
    split; [exact Hu|]. split; [exact Hf|].
    destruct c as [t q up w v p vp fr f sub log].
    intros s'. destruct s, sub; reflexivity.
  - repeat split.
  - destruct (access_frame r c) as (_ & _ & Hu & Hf & Hs).
    rewrite Hs. repeat split; assumption.
Qed.

Lemma run_frame (prog : list Action) :
  forall c : Camera,
    _up (run prog c) = _up c
    /\ _frustum (run prog c) = _frustum c
    /\ (forall s, declares (subclass (run prog c)) s
                  = declares (subclass c) s).
Proof.
  induction prog as [|a prog IH]; intros c.
  - repeat split.
  - change (run (a :: prog) c) with (run prog (perform a c)).
    destruct (IH (perform a c)) as (Hu & Hf & Hs).
    destruct (perform_frame a c) as (Hu' & Hf' & Hs').
    rewrite Hu, Hf. repeat split; trivial.
    intros s. rewrite Hs. apply Hs'.
Qed.

(** X1.  No call ever changes the up reference or the frustum, and the
    accessors an instance offers stay those of the class it was
    constructed with: after any client program [_up] is still
    [Vector3.UnitY], so [lookAt] always orients against +Y, and
    [_frustum] is still the one the constructor allocated. *)
Theorem up_and_frustum_never_change :
  (forall (prog : list Action) (c : Camera),
      _up (run prog c) = _up c
      /\ _frustum (run prog c) = _frustum c
      /\ (forall s, declares (subclass (run prog c)) s
                    = declares (subclass c) s))
  /\ (forall (k : Construction) (prog : list Action),
        _up (run prog (construct k)) = Vector3_UnitY
        /\ _frustum (run prog (construct k)) = Frustum_new).
Proof.
  split; [intros prog c; apply run_frame|].
  intros k prog. destruct (run_frame prog (construct k)) as (Hu & Hf & _).
  rewrite Hu, Hf. destruct k; split; reflexivity.
Qed.

(** X2.  A read never changes what the camera is: whichever of the four
    matrix getters runs, and whether it returns or throws, the
    translation, the orientation and every projection parameter read
    back through its getter are as before. *)
Theorem reads_leave_parameters :
  forall (r : Read) (c : Camera),
    let c' := after (access r c) in
    _translation c' = _translation c
    /\ _orientation c' = _orientation c
    /\ forall x,
         returned (get_parameter x c') = returned (get_parameter x c).
Proof.
  intros r c c'.
  destruct (access_frame r c) as (Ht & Hq & _ & _ & Hs).
  fold c' in Ht, Hq, Hs. split; [exact Ht|]. split; [exact Hq|].
  intros x. unfold get_parameter, read. cbn [returned]. rewrite Hs.
  reflexivity.
Qed.

(** ** Writes are lazy *)

Lemma write_computes_nothing (a : Action) (c : Camera) :
  is_read a = false ->
  calls (perform a c) = calls c
  /\ _world (perform a c) = _world c
  /\ _view (perform a c) = _view c
  /\ _projection (perform a c) = _projection c
  /\ _viewproj (perform a c) = _viewproj c.
Proof.
  destruct a as [m|s| |r]; cbn [is_read perform]; intros Hr;
    try discriminate Hr.
  - destruct (mutate_effect m c)
      as (c' & -> & _ & _ & Hw & Hv & Hp & Hvp & Hc).
    cbn [after]. repeat split; assumption.
  - destruct (configure_effect s c)
      as (c' & -> & _ & _ & _ & Hw & Hv & Hp & Hvp & Hc & _).
    cbn [after]. repeat split; assumption.
  - repeat split.
Qed.

Lemma run_writes (prog : list Action) :
  forall c : Camera,
    forallb (fun a => negb (is_read a)) prog = true ->
    calls (run prog c) = calls c
    /\ _world (run prog c) = _world c
    /\ _view (run prog c) = _view c
    /\ _projection (run prog c) = _projection c
    /\ _viewproj (run prog c) = _viewproj c.
Proof.
  induction prog as [|a prog IH]; intros c Hp.
  - repeat split.
  - change (run (a :: prog) c) with (run prog (perform a c)).
    cbn [forallb] in Hp. apply andb_true_iff in Hp. destruct Hp as [Ha Hp].
    apply negb_true_iff in Ha.
    destruct (IH (perform a c) Hp) as (Hc & Hw & Hv & Hpr & Hvp).
    destruct (write_computes_nothing a c Ha)
      as (Hc' & Hw' & Hv' & Hpr' & Hvp').
    rewrite Hc, Hw, Hv, Hpr, Hvp. repeat split; assumption.
Qed.

(** X3.  Mutators, setters and the [dirty] setter never compute a cached
    matrix: a program without reads, however long, makes no call on any of
    the four cached matrices and leaves them as they were.  On a camera
    that has only been written to since its construction the call list is
    therefore empty and the four matrices are still the ones the
    constructor allocated. *)
Theorem writes_compute_nothing :
  forall prog : list Action,
    forallb (fun a => negb (is_read a)) prog = true ->
    (forall c : Camera,
        calls (run prog c) = calls c
        /\ _world (run prog c) = _world c
        /\ _view (run prog c) = _view c
        /\ _projection (run prog c) = _projection c
        /\ _viewproj (run prog c) = _viewproj c)
    /\ (forall k : Construction,
          let c := run prog (construct k) in
          calls c = []
          /\ _world c = Matrix4_new
          /\ _view c = Matrix4_new
          /\ _projection c = Matrix4_new
          /\ _viewproj c = Matrix4_new).
Proof.
  intros prog Hp. split.
  - intros c. apply run_writes. exact Hp.
  - intros k c.
    destruct (run_writes prog (construct k) Hp) as (Hc & Hw & Hv & Hpr & Hvp).
    fold c in Hc, Hw, Hv, Hpr, Hvp. rewrite Hc, Hw, Hv, Hpr, Hvp.
    destruct k; repeat split.
Qed.

(** X4.  After any client program the mask is one of the eight subsets of
    the three bits, so [dirtyFlag > 0] means that some bit is set, and the
    View bit is never clear while the World bit is set: a valid view
    matrix always goes with a valid world matrix. *)
Theorem mask_invariant :
  forall (k : Construction) (prog : list Action),
    let c := run prog (construct k) in
    0 <= dirtyFlag c <= 7
    /\ ((0 <? dirtyFlag c) = true <->
        bit_set DirtyMatrix.World c = true
        \/ bit_set DirtyMatrix.View c = true
        \/ bit_set DirtyMatrix.Projection c = true)
    /\ (bit_set DirtyMatrix.View c = false ->
        bit_set DirtyMatrix.World c = false).
Proof.
  intros k prog c.
  destruct (coherent_reachable k prog) as (Hf & _ & Hv & _). fold c in Hf, Hv.
  split; [exact Hf|]. split.
  - rewrite (positive_mask _ Hf). unfold bit_set.
    rewrite !orb_true_iff. tauto.
  - intros HV. apply (Hv HV).
Qed.

(** ** Reads *)

(** X5.  Every matrix getter is idempotent: when a read of [world],
    [view], [projection] or [viewProjection] returns, the same read made
    again right away returns the same matrix and leaves the instance,
    call list included, exactly as the first read left it. *)
Theorem reads_are_idempotent :
  forall (r : Read) (c c1 : Camera) (m : Matrix4),
    mask_ok (dirtyFlag c) ->
    access r c = Normal m c1 ->
    access r c1 = Normal m c1.
Proof.
  intros r c c1 m Hf H. destruct r; cbn [access] in *.
  - destruct (get_world_effect c Hf)
      as (w & c1' & Hg & Hw1 & _ & _ & _ & HW1 & _).
    rewrite Hg in H. injection H as <- <-.
    rewrite (get_world_clean c1' HW1), Hw1. reflexivity.
  - destruct (get_view_effect c Hf)
      as (v & c2 & Hg & Hv2 & _ & _ & Hf2 & HW2 & HV2 & _).
    rewrite Hg in H. injection H as <- <-.
    assert (E : bit_set WorldView c2 = false).
    { unfold bit_set in *. rewrite (has_WorldView _ Hf2), HW2, HV2.
      reflexivity. }
    rewrite (get_view_clean c2 E), Hv2. reflexivity.
  - destruct (bit_set DirtyMatrix.Projection c) eqn:E.
    + destruct (get_projection_effect c Hf)
        as (_ & _ & _ & _ & _ & _ & _ & _ & _ & _ & _ & Hc & Hth).
      destruct (subclass c) eqn:Es.
      * rewrite (Hth eq_refl E) in H. discriminate H.
      * destruct Hc as [Hg HP]; [discriminate|].
        rewrite Hg in H. injection H as <- <-.
        apply (get_projection_clean _ HP).
      * destruct Hc as [Hg HP]; [discriminate|].
        rewrite Hg in H. injection H as <- <-.
        apply (get_projection_clean _ HP).
    + rewrite (get_projection_clean c E) in H. injection H as <- <-.
      apply (get_projection_clean c E).
  - destruct (0 <? dirtyFlag c) eqn:E.
    + assert (Hs : bit_set DirtyMatrix.Projection c = true ->
                   subclass c <> IsCamera).
      { intros HP Hsub.
        destruct (get_viewProjection_base c Hf Hsub HP) as (c' & Hg & _).
        rewrite Hg in H. discriminate H. }
      destruct (get_viewProjection_effect c Hf Hs)
        as (v & p & c' & _ & _ & Hd & _ & H0 & _).
      destruct (Hd E) as (Hg & Hvp & _).
      rewrite Hg in H. injection H as <- <-.
      rewrite <- Hvp. apply get_viewProjection_clean.
      rewrite H0. reflexivity.
    + rewrite (get_viewProjection_clean c E) in H. injection H as <- <-.
      apply (get_viewProjection_clean c E).
Qed.

(** X6.  Whatever the cache held, a transform mutator shows at the next
    read.  After [translation = v] the camera is at [v]; after
    [orientation = r] it is turned to [r]; [translate] adds to the
    translation the axis rotated by the current orientation and scaled by
    the distance, and keeps the orientation; [rotate] multiplies the
    orientation on the right by the axis-angle quaternion and keeps the
    translation; [lookAt] takes the orientation of the look-at matrix
    built from the identity, the current translation, the point and the up
    reference, and keeps the translation.  The next [world] read returns
    [compose] of exactly these, and the next [view] read its inverse. *)
Theorem mutation_shows_at_next_read :
  forall (m : TransformMutator) (c : Camera),
    mask_ok (dirtyFlag c) ->
    let c' := after (mutate m c) in
    let w := Matrix4_compose (fst (moved m c)) (snd (moved m c))
               Vector3_One in
    _translation c' = fst (moved m c)
    /\ _orientation c' = snd (moved m c)
    /\ returned (get_world c') = Some w
    /\ returned (get_view c') = Some (Matrix4_inverse w).
Proof.
  intros m c Hf c' w.
  destruct (raise_WorldView _ Hf) as (Hok & HW & HV & HWV & _).
  assert (Hd : dirtyFlag c' = js_or (dirtyFlag c) WorldView)
    by (destruct m; reflexivity).
  assert (Ht : _translation c' = fst (moved m c))
    by (destruct m; reflexivity).
  assert (Hq : _orientation c' = snd (moved m c))
    by (destruct m; reflexivity).
  assert (HW' : bit_set DirtyMatrix.World c' = true)
    by (unfold bit_set; rewrite Hd; exact HW).
  assert (HWV' : bit_set WorldView c' = true)
    by (unfold bit_set; rewrite Hd; exact HWV).
  pose proof (get_world_dirty c' HW') as Hg. cbv zeta in Hg.
  rewrite Ht, Hq in Hg. fold w in Hg.
  split; [exact Ht|]. split; [exact Hq|]. split.
  - rewrite Hg. reflexivity.
  - rewrite (get_view_dirty c' _ w HWV' Hg). reflexivity.
Qed.

(** ** Projection parameters *)

Lemma undeclared_setter_is_noop (s : ProjectionSetter) (c : Camera) :
  declares (subclass c) s = false -> configure s c = Normal tt c.
Proof.
  destruct c as [t q up w v p vp fr f sub log].
  destruct s, sub; cbn [declares subclass]; intros Hd;
    try discriminate Hd; reflexivity.
Qed.


Ltac compute_setters :=
  cbv beta iota zeta delta
    [configure perspective_setter orthographic_setter
     PerspectiveCamera_set_fov PerspectiveCamera_set_aspect
     PerspectiveCamera_set_zoom PerspectiveCamera_set_near
     PerspectiveCamera_set_far
     OrthographicCamera_set_left OrthographicCamera_set_right
     OrthographicCamera_set_top OrthographicCamera_set_bottom
     OrthographicCamera_set_zoom OrthographicCamera_set_near
     OrthographicCamera_set_far
     bind ret assign after set_bits with_dirtyFlag with_subclass
     _translation _orientation _up _world _view _projection _viewproj
     _frustum dirtyFlag subclass calls
     Perspective._fov Perspective._aspect Perspective._near
     Perspective._far Perspective._zoom
     Orthographic._left Orthographic._right Orthographic._top
     Orthographic._bottom Orthographic._near Orthographic._far
     Orthographic._zoom].

Lemma raise_Projection_twice :
  forall f, mask_ok f ->
    js_or (js_or f DirtyMatrix.Projection) DirtyMatrix.Projection
    = js_or f DirtyMatrix.Projection.
Proof. mask_table. Qed.

(** X8.  Setters compose as assignments do: of two writes to the same
    parameter the last one wins, and writes to different parameters can be
    swapped; either way the instance ends up exactly the same. *)
Theorem setters_compose :
  forall (s1 s2 : ProjectionSetter) (c : Camera),
    mask_ok (dirtyFlag c) ->
    (parameter_of s1 = parameter_of s2 ->
       after (configure s2 (after (configure s1 c)))
       = after (configure s2 c))
    /\ (parameter_of s1 <> parameter_of s2 ->
        after (configure s2 (after (configure s1 c)))
        = after (configure s1 (after (configure s2 c)))).
Proof.
  intros s1 s2 c Hf. destruct c as [t q up w v p vp fr f sub log].
  cbn [dirtyFlag] in Hf. pose proof (raise_Projection_twice f Hf) as H2.
  destruct sub; destruct s1, s2; cbn [parameter_of]; split; intros Hp;
    try discriminate Hp; try (exfalso; apply Hp; reflexivity);
    compute_setters; rewrite ?H2; reflexivity.
Qed.

(** ** The combined matrix *)


(** X10.  A [viewProjection] read that throws is not undone.  On an
    instance of the base class with its Projection bit set, the [view]
    getter has run and its result has been copied into the combined
    matrix by the time [projection] throws: afterwards the combined matrix
    holds the view matrix, the World and View bits are clear, the
    Projection bit is still set, and the next [viewProjection] read
    throws again. *)
Theorem failed_viewProjection_is_not_undone :
  forall c : Camera,
    mask_ok (dirtyFlag c) ->
    subclass c = IsCamera ->
    bit_set DirtyMatrix.Projection c = true ->
    exists v c2 c',
      get_view c = Normal v c2
      /\ c' = record_call (Call_copy v) (with_viewproj v c2)
      /\ get_viewProjection c = Throw "Not Implemented"%string c'
      /\ _viewproj c' = v
      /\ bit_set DirtyMatrix.World c' = false
      /\ bit_set DirtyMatrix.View c' = false
      /\ bit_set DirtyMatrix.Projection c' = true
      /\ outcome (get_viewProjection c') = inr "Not Implemented"%string.
Proof.
  intros c Hf Hs HP.
  assert (E : (0 <? dirtyFlag c) = true).
  { rewrite (positive_mask _ Hf). unfold bit_set in HP. rewrite HP.
    apply orb_true_r. }
  destruct (get_view_effect c Hf)
    as (v & c2 & Hg & _ & _ & _ & Hf2 & HW2 & HV2 & HP2 & _ & _ & _ & _
        & _ & Hs2 & _).
  set (c' := record_call (Call_copy v) (with_viewproj v c2)).
  assert (Hs' : subclass c' = IsCamera) by (rewrite <- Hs; exact Hs2).
  assert (HP' : bit_set DirtyMatrix.Projection c' = true)
    by (rewrite <- HP; exact HP2).
  pose proof (get_projection_throws c' c' _ HP'
                (updateProjection_base c' Hs')) as Hth.
  exists v, c2, c'.
  split; [exact Hg|]. split; [reflexivity|].
  split; [exact (get_viewProjection_throws c c2 c' v _ E Hg Hth)|].
  split; [reflexivity|]. split; [exact HW2|]. split; [exact HV2|].
  split; [exact HP'|].
  destruct (get_viewProjection_base c' Hf2 Hs' HP') as (c3 & -> & _).
  reflexivity.
Qed.

(** ** The projection cache *)

Lemma projection_coherent_ext (c c' : Camera) :
  projection_coherent c ->
  bit_set DirtyMatrix.Projection c' = bit_set DirtyMatrix.Projection c ->
  _projection c' = _projection c ->
  subclass c' = subclass c ->
  projection_coherent c'.
Proof. unfold projection_coherent. intros H -> -> ->. exact H. Qed.

Lemma get_projection_value (c : Camera) (pm : Matrix4) :
  mask_ok (dirtyFlag c) ->
  projection_coherent c ->
  projection_matrix (subclass c) = Some pm ->
  exists c',
    get_projection c = Normal pm c'
    /\ _projection c' = pm
    /\ bit_set DirtyMatrix.Projection c' = false
    /\ subclass c' = subclass c.
Proof.
  intros Hf Hpc Hpm.
  destruct (bit_set DirtyMatrix.Projection c) eqn:E.
  - destruct (lower_Projection _ Hf) as (_ & _ & _ & _ & HP).
    cbv zeta in HP.
    destruct (subclass c) as [|pf|ofs] eqn:Es; cbn [projection_matrix] in Hpm.
    + discriminate Hpm.
    + injection Hpm as <-.
      pose proof (get_projection_perspective c pf Es E) as Hg.
      cbv zeta in Hg. rewrite Hg. eexists. split; [reflexivity|].
      repeat split; [exact HP | exact Es].
    + injection Hpm as <-.
      pose proof (get_projection_orthographic c ofs Es E) as Hg.
      cbv zeta in Hg. rewrite Hg. eexists. split; [reflexivity|].
      repeat split; [exact HP | exact Es].
  - specialize (Hpc E). rewrite Hpm in Hpc. injection Hpc as Hpc.
    rewrite (get_projection_clean c E), Hpc.
    exists c. repeat split; assumption.
Qed.

Lemma projection_coherent_get_projection (c : Camera) :
  coherent c ->
  projection_coherent c ->
  projection_coherent (after (get_projection c)).
Proof.
  intros H Hpc. pose proof H as (Hf & _ & _ & Hb).
  destruct (projection_matrix (subclass c)) as [pm|] eqn:Hpm.
  - destruct (get_projection_value c pm Hf Hpc Hpm)
      as (c' & -> & Hp & HP & Hs).
    cbn [after]. intros _. rewrite Hp, Hs, Hpm. reflexivity.
  - assert (Hs : subclass c = IsCamera)
      by (destruct (subclass c); [reflexivity | discriminate Hpm ..]).
    rewrite (get_projection_throws c c _ (Hb Hs)
               (updateProjection_base c Hs)).
    exact Hpc.
Qed.

Lemma projection_coherent_get_viewProjection (c : Camera) :
  coherent c ->
  projection_coherent c ->
  projection_coherent (after (get_viewProjection c)).
Proof.
  intros H Hpc. pose proof H as (Hf & _).
  destruct (0 <? dirtyFlag c) eqn:E.
  - destruct (get_view_coherent c H)
      as (c2 & Hg & Hc2 & _ & _ & HP2 & _ & _ & _ & _ & Hp2 & _ & Hs2).
    set (v := Matrix4_inverse
                (Matrix4_compose (_translation c) (_orientation c)
                   Vector3_One)) in *.
    set (c2' := record_call (Call_copy v) (with_viewproj v c2)).
    assert (Hc2' : coherent c2')
      by (apply coherent_ext with (c := c2); trivial).
    assert (Hpc2' : projection_coherent c2')
      by (apply projection_coherent_ext with (c := c); assumption).
    pose proof (projection_coherent_get_projection c2' Hc2' Hpc2') as Hpc3.
    destruct (get_projection c2') as [p c3|e c3] eqn:Egp.
    + pose proof Hc2' as (Hf2' & _).
      destruct (get_projection_effect c2' Hf2')
        as (_ & _ & _ & _ & _ & _ & _ & Hvp3 & _).
      rewrite Egp in Hvp3. cbn [after] in Hvp3, Hpc3.
      rewrite (get_viewProjection_dirty c c2 c3 v p E Hg Egp Hvp3).
      cbn [after]. apply projection_coherent_ext with (c := c3); trivial.
    + rewrite (get_viewProjection_throws c c2 c3 v e E Hg Egp).
      exact Hpc3.
  - rewrite (get_viewProjection_clean c E). exact Hpc.
Qed.

Lemma projection_coherent_perform (a : Action) (c : Camera) :
  coherent c ->
  projection_coherent c ->
  projection_coherent (perform a c).
Proof.
  intros H Hpc. pose proof H as (Hf & _).
  destruct a as [m|s| |[]]; cbn [perform access].
  - destruct (mutate_effect m c)
      as (c' & -> & Hd & Hs & _ & _ & Hp & _).
    destruct (raise_WorldView _ Hf) as (_ & _ & _ & _ & HP).
    cbn [after]. apply projection_coherent_ext with (c := c); trivial.
    unfold bit_set. rewrite Hd. exact HP.
  - destruct (declares (subclass c) s) eqn:Hd.
    + destruct (configure_effect s c) as (c' & -> & Hfl & _).
      rewrite Hd in Hfl.
      destruct (raise_Projection _ Hf) as (_ & _ & _ & _ & HP).
      cbn [after]. unfold projection_coherent, bit_set.
      rewrite Hfl, HP. discriminate.
    + rewrite (undeclared_setter_is_noop s c Hd). exact Hpc.
  - apply projection_coherent_ext with (c := c); trivial.
    unfold bit_set. change (dirtyFlag (after (set_dirty false c)))
      with (js_or (dirtyFlag c) 0).
    rewrite (raise_nothing _ Hf). reflexivity.
  - destruct (get_world_effect c Hf)
      as (w & c1 & -> & _ & _ & _ & _ & _ & _ & HP & _ & _ & _ & Hp & _
          & Hs & _).
    cbn [after]. apply projection_coherent_ext with (c := c); trivial.
  - destruct (get_view_effect c Hf)
      as (v & c2 & -> & _ & _ & _ & _ & _ & _ & HP & _ & _ & _ & Hp & _
          & Hs & _).
    cbn [after]. apply projection_coherent_ext with (c := c); trivial.
  - apply projection_coherent_get_projection; assumption.
  - apply projection_coherent_get_viewProjection; assumption.
Qed.

Lemma projection_coherent_reachable (k : Construction)
    (prog : list Action) :
  projection_coherent (run prog (construct k)).
Proof.
  assert (H : forall prog c, coherent c -> projection_coherent c ->
                             projection_coherent (run prog c)).
  { clear prog. induction prog as [|a prog IH]; intros c Hc Hpc.
    - exact Hpc.
    - change (run (a :: prog) c) with (run prog (perform a c)).
      apply IH; [apply coherent_perform | apply projection_coherent_perform];
        assumption. }
  apply H; [apply coherent_construct|].
  destruct has_All as (_ & _ & HP).
  unfold projection_coherent, bit_set.
  replace (dirtyFlag (construct k)) with DirtyMatrix.All
    by (destruct k; reflexivity).
  rewrite HP. discriminate.
Qed.

(** X11.  The projection getter never serves a matrix of outdated
    parameters.  After any client program on a perspective camera, a
    [projection] read returns [makePerspective] of the effective field
    of view and the aspect, near and far the camera holds at that read;
    on an orthographic camera it returns [makeOrthographic] of the four
    bounds times the zoom, and the near and far, it holds at that read. *)
Theorem projection_read_builds_from_current_parameters :
  forall (k : Construction) (prog : list Action),
    let c := run prog (construct k) in
    (forall p : Perspective.fields num,
        subclass c = IsPerspectiveCamera p ->
        returned (get_projection c)
        = Some (Matrix4_makePerspective
                  (ToDegrees
                     (num_mul lit_2
                        (Math_atan
                           (num_div
                              (Math_tan
                                 (num_mul (ToRadians (Perspective._fov p))
                                    lit_0_5))
                              (Perspective._zoom p)))))
                  (Perspective._aspect p) (Perspective._near p)
                  (Perspective._far p)))
    /\ (forall o : Orthographic.fields num,
          subclass c = IsOrthographicCamera o ->
          returned (get_projection c)
          = Some (Matrix4_makeOrthographic
                    (num_mul (Orthographic._left o) (Orthographic._zoom o))
                    (num_mul (Orthographic._right o) (Orthographic._zoom o))
                    (num_mul (Orthographic._top o) (Orthographic._zoom o))
                    (num_mul (Orthographic._bottom o)
                       (Orthographic._zoom o))
                    (Orthographic._near o) (Orthographic._far o))).
Proof.
  intros k prog c.
  destruct (coherent_reachable k prog) as (Hf & _).
  pose proof (projection_coherent_reachable k prog) as Hpc.
  fold c in Hf, Hpc.
  split.
  - intros p Hs.
    destruct (get_projection_value c _ Hf Hpc
                (f_equal projection_matrix Hs)) as (c' & -> & _).
    reflexivity.
  - intros o Hs.
    destruct (get_projection_value c _ Hf Hpc
                (f_equal projection_matrix Hs)) as (c' & -> & _).
    reflexivity.
Qed.

(** ** The combined cache *)

Lemma raised_mask_not_empty (f bits : Z) :
  has DirtyMatrix.World (js_or f bits) = true
  \/ has DirtyMatrix.Projection (js_or f bits) = true ->
  js_or f bits <> 0.
Proof.
  intros H E. rewrite E in H.
  rewrite !has_zero in H by auto. destruct H; discriminate.
Qed.

Lemma combined_coherent_ext (c c' : Camera) :
  combined_coherent c ->
  dirtyFlag c' = dirtyFlag c ->
  _view c' = _view c ->
  _projection c' = _projection c ->
  _viewproj c' = _viewproj c ->
  combined_coherent c'.
Proof. unfold combined_coherent. intros H -> -> -> ->. exact H. Qed.

Lemma get_projection_returns_cache (c c' : Camera) (p : Matrix4) :
  get_projection c = Normal p c' -> _projection c' = p.
Proof.
  destruct (bit_set DirtyMatrix.Projection c) eqn:E.
  - destruct (updateProjection c) as [[] c1|e c1] eqn:Hu.
    + rewrite (get_projection_dirty c c1 E Hu). intros [= <- <-].
      reflexivity.
    + rewrite (get_projection_throws c c1 e E Hu). discriminate.
  - rewrite (get_projection_clean c E). intros [= <- <-]. reflexivity.
Qed.

Lemma get_projection_throw_keeps (c c' : Camera) (e : string) :
  get_projection c = Throw e c' ->
  c' = c /\ bit_set DirtyMatrix.Projection c = true.
Proof.
  destruct (bit_set DirtyMatrix.Projection c) eqn:E.
  - destruct (subclass c) eqn:Es.
    + rewrite (get_projection_throws c c _ E (updateProjection_base c Es)).
      intros [= _ <-]. split; reflexivity.
    + destruct (updateProjection_concrete (subclass c))
        as (m & ev & _ & Hu); [congruence|].
      rewrite (get_projection_dirty c _ E (Hu c eq_refl)). discriminate.
    + destruct (updateProjection_concrete (subclass c))
        as (m & ev & _ & Hu); [congruence|].
      rewrite (get_projection_dirty c _ E (Hu c eq_refl)). discriminate.
  - rewrite (get_projection_clean c E). discriminate.
Qed.

Lemma combined_coherent_get_viewProjection (c : Camera) :
  coherent c ->
  combined_coherent c ->
  combined_coherent (after (get_viewProjection c)).
Proof.
  intros H Hcc. pose proof H as (Hf & _).
  destruct (0 <? dirtyFlag c) eqn:E.
  - destruct (get_view_effect c Hf)
      as (v & c2 & Hg & Hv2 & _ & _ & Hf2 & _ & _ & HP2 & _ & _ & _ & _
          & _ & Hs2 & _).
    set (c2' := record_call (Call_copy v) (with_viewproj v c2)).
    assert (Hf2' : mask_ok (dirtyFlag c2')) by exact Hf2.
    destruct (get_projection_effect c2' Hf2')
      as (_ & _ & _ & _ & _ & _ & Hv3 & Hvp3 & _).
    destruct (get_projection c2') as [p c3|e c3] eqn:Egp.
    + cbn [after] in Hv3, Hvp3.
      rewrite (get_viewProjection_dirty c c2 c3 v p E Hg Egp Hvp3).
      cbn [after]. intros _.
      cbn [_viewproj _view _projection record_call with_viewproj].
      rewrite Hv3. change (_view c2') with (_view c2). rewrite Hv2.
      rewrite (get_projection_returns_cache c2' c3 p Egp). reflexivity.
    + rewrite (get_viewProjection_throws c c2 c3 v e E Hg Egp).
      cbn [after]. intros H0. exfalso.
      destruct (get_projection_throw_keeps c2' c3 e Egp) as [-> HP].
      unfold bit_set in HP. rewrite H0 in HP.
      rewrite has_zero in HP by auto. discriminate HP.
  - rewrite (get_viewProjection_clean c E). exact Hcc.
Qed.

Lemma combined_coherent_perform (a : Action) (c : Camera) :
  reads_combined_only a = true ->
  coherent c ->
  combined_coherent c ->
  combined_coherent (perform a c).
Proof.
  intros Ha H Hcc. pose proof H as (Hf & _ & Hv & _).
  destruct a as [m|s| |[]]; cbn [perform access reads_combined_only] in *;
    try discriminate Ha.
  - destruct (mutate_effect m c) as (c' & -> & Hd & _).
    destruct (raise_WorldView _ Hf) as (_ & HW & _).
    cbn [after]. intros H0. exfalso. rewrite Hd in H0.
    revert H0. apply raised_mask_not_empty. left. exact HW.
  - destruct (declares (subclass c) s) eqn:Hd.
    + destruct (configure_effect s c) as (c' & -> & Hfl & _).
      rewrite Hd in Hfl.
      destruct (raise_Projection _ Hf) as (_ & _ & _ & _ & HP).
      cbn [after]. intros H0. exfalso. rewrite Hfl in H0.
      revert H0. apply raised_mask_not_empty. right. exact HP.
    + rewrite (undeclared_setter_is_noop s c Hd). exact Hcc.
  - apply combined_coherent_ext with (c := c); trivial.
    change (dirtyFlag (after (set_dirty false c)))
      with (js_or (dirtyFlag c) 0).
    apply (raise_nothing _ Hf).
  - destruct (bit_set DirtyMatrix.World c) eqn:EW.
    + destruct (get_world_effect c Hf)
        as (w & c1 & -> & _ & _ & _ & _ & _ & HV1 & _).
      cbn [after]. intros H0. exfalso.
      unfold bit_set in HV1. rewrite H0 in HV1.
      rewrite has_zero in HV1 by auto.
      symmetry in HV1. apply Hv in HV1. destruct HV1 as [HV1 _].
      congruence.
    + rewrite (get_world_clean c EW). exact Hcc.
  - apply combined_coherent_get_viewProjection; assumption.
Qed.

Lemma combined_coherent_reachable (k : Construction)
    (prog : list Action) :
  forallb reads_combined_only prog = true ->
  combined_coherent (run prog (construct k)).
Proof.
  assert (H : forall prog c,
             forallb reads_combined_only prog = true ->
             coherent c -> combined_coherent c ->
             combined_coherent (run prog c)).
  { clear prog. induction prog as [|a prog IH]; intros c Hp Hc Hcc.
    - exact Hcc.
    - change (run (a :: prog) c) with (run prog (perform a c)).
      cbn [forallb] in Hp. apply andb_true_iff in Hp.
      destruct Hp as [Ha Hp].
      apply IH; [exact Hp | apply coherent_perform
                 | apply combined_coherent_perform]; assumption. }
  intros Hp. apply H; [exact Hp | apply coherent_construct|].
  intros H0. exfalso.
  replace (dirtyFlag (construct k)) with DirtyMatrix.All in H0
    by (destruct k; reflexivity).
  destruct mask_All as [_ H7]. rewrite H7 in H0. discriminate H0.
Qed.

(** X12.  A client that reads [view] and [projection] only through
    [viewProjection] always gets a fresh combined matrix.  After any
    program of mutators, setters, [dirty] writes and [world] and
    [viewProjection] reads on a concrete subclass, a [viewProjection]
    read returns the inverse of [compose] of the current translation and
    orientation, multiplied on the right by the projection matrix of the
    current parameters. *)
Theorem viewProjection_is_fresh_when_read_alone :
  forall (k : Construction) (prog : list Action) (pm : Matrix4),
    forallb reads_combined_only prog = true ->
    let c := run prog (construct k) in
    projection_matrix (subclass c) = Some pm ->
    returned (get_viewProjection c)
    = Some (Matrix4_multiply
              (Matrix4_inverse
                 (Matrix4_compose (_translation c) (_orientation c)
                    Vector3_One))
              pm).
Proof.
  intros k prog pm Hp c Hpm.
  pose proof (coherent_reachable k prog) as H.
  pose proof (projection_coherent_reachable k prog) as Hpc.
  pose proof (combined_coherent_reachable k prog Hp) as Hcc.
  fold c in H, Hpc, Hcc. pose proof H as (Hf & Hw & Hv & _).
  assert (Hs : subclass c <> IsCamera)
    by (intros Hs; rewrite Hs in Hpm; discriminate Hpm).
  destruct (get_viewProjection_effect c Hf (fun _ => Hs))
    as (v & p & c' & Hgv & Hgp & Hd & Hcl & _).
  destruct (get_view_coherent c H)
    as (c2 & Hg & Hc2 & _ & _ & HP2 & _ & _ & _ & _ & Hp2 & _ & Hs2).
  rewrite Hg in Hgv, Hgp. cbn [returned after] in Hgv, Hgp.
  injection Hgv as <-.
  assert (Hpc2 : projection_coherent c2)
    by (apply projection_coherent_ext with (c := c); assumption).
  destruct Hc2 as (Hf2 & _).
  destruct (get_projection_value c2 pm Hf2 Hpc2) as (c3 & Hg3 & _);
    [rewrite Hs2; exact Hpm|].
  rewrite Hg3 in Hgp. injection Hgp as <-.
  destruct (0 <? dirtyFlag c) eqn:E.
  - destruct (Hd eq_refl) as (-> & _). reflexivity.
  - destruct (Hcl eq_refl) as (-> & _). cbn [returned].
    assert (H0 : dirtyFlag c = 0)
      by (unfold mask_ok in Hf; apply Z.ltb_ge in E; lia).
    assert (HW : bit_set DirtyMatrix.World c = false)
      by (unfold bit_set; rewrite H0; apply has_zero; auto).
    assert (HV : bit_set DirtyMatrix.View c = false)
      by (unfold bit_set; rewrite H0; apply has_zero; auto).
    assert (HP : bit_set DirtyMatrix.Projection c = false)
      by (unfold bit_set; rewrite H0; apply has_zero; auto).
    rewrite (Hcc H0). destruct (Hv HV) as [_ ->]. rewrite (Hw HW).
    specialize (Hpc HP). rewrite Hpm in Hpc. injection Hpc as ->.
    reflexivity.
Qed.

(** ** How much the cache computes *)

Lemma count_calls_app (k : Call -> bool) (l : list Call) (e : Call) :
  count_calls k (l ++ [e])
  = (count_calls k l + (if k e then 1 else 0))%nat.
Proof.
  unfold count_calls. rewrite filter_app, length_app. cbn [filter].
  destruct (k e); reflexivity.
Qed.

Lemma conserves_refl (c : Camera) : conserves 0 c c.
Proof. unfold conserves. conjs; trivial; lia. Qed.

Lemma conserves_trans (n n' : nat) (c c' c'' : Camera) :
  conserves n c c' -> conserves n' c' c'' -> conserves (n + n') c c''.
Proof.
  unfold conserves. intros (H1 & H2 & H3 & H4) (G1 & G2 & G3 & G4).
  conjs; try congruence; lia.
Qed.

Lemma get_world_conserves (c : Camera) :
  mask_ok (dirtyFlag c) -> conserves 0 c (after (get_world c)).
Proof.
  intros Hf. destruct (bit_set DirtyMatrix.World c) eqn:E.
  - destruct (get_world_effect c Hf)
      as (w & c1 & -> & _ & Hd & _ & _ & HW & HV & HP & _).
    destruct (Hd E) as [_ Hc]. cbn [after].
    unfold conserves, charged. rewrite HW, HV, HP, E, Hc.
    rewrite !count_calls_app. cbn [is_compose is_inverse is_make is_multiply].
    conjs; lia.
  - rewrite (get_world_clean c E). apply conserves_refl.
Qed.

Lemma get_view_conserves (c : Camera) :
  coherent c -> conserves 0 c (after (get_view c)).
Proof.
  intros H. pose proof H as (Hf & _ & Hv & _).
  destruct (bit_set WorldView c) eqn:E.
  - pose proof (get_world_conserves c Hf) as Hw.
    destruct (get_world_effect c Hf)
      as (w & c1 & Hg & _ & _ & _ & Hf1 & HW1 & HV1 & HP1 & _).
    rewrite Hg in Hw. cbn [after] in Hw.
    destruct (get_view_effect c Hf)
      as (v & c2 & -> & _ & Hd & _ & _ & HW2 & HV2 & HP2 & _).
    destruct (Hd E) as [_ Hc]. rewrite Hg in Hc. cbn [after] in Hc |- *.
    assert (HV : bit_set DirtyMatrix.View c = true).
    { destruct (bit_set DirtyMatrix.View c) eqn:EV; [reflexivity|].
      destruct (Hv eq_refl) as [EW _]. unfold bit_set in *.
      rewrite (has_WorldView _ Hf), EW, EV in E. discriminate E. }
    destruct Hw as (H1 & H2 & H3 & H4).
    unfold conserves, charged in *.
    rewrite HW2, HV2, HP2, Hc, !count_calls_app.
    cbn [is_compose is_inverse is_make is_multiply].
    rewrite HW1 in H1. rewrite HV1, HV in H2. rewrite HP1 in H3.
    rewrite HV. conjs; lia.
  - rewrite (get_view_clean c E). apply conserves_refl.
Qed.

Lemma updateProjection_makes (sub : Subclass num) :
  sub <> IsCamera ->
  exists m e,
    is_make e = true
    /\ forall c, subclass c = sub ->
         updateProjection c
         = Normal tt (record_call e (with_projection m c)).
Proof.
  intros Hs. destruct sub; [congruence | |];
    do 2 eexists; (split; [|intros c Hc; unfold updateProjection;
                              rewrite Hc; reflexivity]); reflexivity.
Qed.

Lemma get_projection_conserves (c : Camera) :
  mask_ok (dirtyFlag c) -> conserves 0 c (after (get_projection c)).
Proof.
  intros Hf. destruct (bit_set DirtyMatrix.Projection c) eqn:E.
  - destruct (subclass c) eqn:Es.
    + rewrite (get_projection_throws c c _ E (updateProjection_base c Es)).
      apply conserves_refl.
    + destruct (updateProjection_makes (subclass c))
        as (m & e & He & Hu); [congruence|].
      rewrite (get_projection_dirty c _ E (Hu c eq_refl)). cbn [after].
      destruct (lower_Projection _ Hf) as (_ & HW & HV & _ & HP).
      cbv zeta in HW, HV, HP.
      unfold conserves, charged, bit_set in *.
      cbn [dirtyFlag calls clear_bits record_call with_projection
           with_dirtyFlag].
      rewrite HW, HV, HP, E, !count_calls_app.
      destruct e; try discriminate He;
        cbn [is_compose is_inverse is_make is_multiply]; conjs; lia.
    + destruct (updateProjection_makes (subclass c))
        as (m & e & He & Hu); [congruence|].
      rewrite (get_projection_dirty c _ E (Hu c eq_refl)). cbn [after].
      destruct (lower_Projection _ Hf) as (_ & HW & HV & _ & HP).
      cbv zeta in HW, HV, HP.
      unfold conserves, charged, bit_set in *.
      cbn [dirtyFlag calls clear_bits record_call with_projection
           with_dirtyFlag].
      rewrite HW, HV, HP, E, !count_calls_app.
      destruct e; try discriminate He;
        cbn [is_compose is_inverse is_make is_multiply]; conjs; lia.
  - rewrite (get_projection_clean c E). apply conserves_refl.
Qed.

Lemma get_viewProjection_conserves (c : Camera) :
  coherent c -> conserves 1 c (after (get_viewProjection c)).
Proof.
  intros H. pose proof H as (Hf & _).
  destruct (0 <? dirtyFlag c) eqn:E.
  - pose proof (get_view_conserves c H) as Hcv.
    destruct (get_view_effect c Hf)
      as (v & c2 & Hg & _ & _ & _ & Hf2 & _).
    rewrite Hg in Hcv. cbn [after] in Hcv.
    set (c2' := record_call (Call_copy v) (with_viewproj v c2)).
    assert (Hcopy : conserves 0 c2 c2').
    { unfold conserves, charged, bit_set.
      cbn [dirtyFlag calls c2' record_call with_viewproj].
      rewrite !count_calls_app.
      cbn [is_compose is_inverse is_make is_multiply]. conjs; lia. }
    assert (Hf2' : mask_ok (dirtyFlag c2')) by exact Hf2.
    pose proof (get_projection_conserves c2' Hf2') as Hcp.
    pose proof (conserves_trans _ _ _ _ _
                  (conserves_trans _ _ _ _ _ Hcv Hcopy) Hcp) as Hall.
    destruct (get_projection_effect c2' Hf2')
      as (_ & _ & _ & _ & _ & _ & _ & Hvp3 & _).
    destruct (get_projection c2') as [p c3|e c3] eqn:Egp.
    + cbn [after] in Hvp3, Hall.
      rewrite (get_viewProjection_dirty c c2 c3 v p E Hg Egp Hvp3).
      cbn [after]. destruct Hall as (H1 & H2 & H3 & H4).
      unfold conserves, charged, bit_set in *.
      cbn [dirtyFlag calls record_call with_viewproj].
      rewrite !count_calls_app.
      cbn [is_compose is_inverse is_make is_multiply]. conjs; lia.
    + rewrite (get_viewProjection_throws c c2 c3 v e E Hg Egp).
      cbn [after] in Hall |- *. destruct Hall as (H1 & H2 & H3 & H4).
      unfold conserves. conjs; trivial; lia.
  - rewrite (get_viewProjection_clean c E). cbn [after].
    destruct (conserves_refl c) as (H1 & H2 & H3 & H4).
    unfold conserves. conjs; trivial; lia.
Qed.

Lemma perform_charges (a : Action) (c : Camera) :
  coherent c ->
  (charged is_compose DirtyMatrix.World (perform a c)
   <= charged is_compose DirtyMatrix.World c
      + (if is_mutation a then 1 else 0))%nat
  /\ (charged is_inverse DirtyMatrix.View (perform a c)
      <= charged is_inverse DirtyMatrix.View c
         + (if is_mutation a then 1 else 0))%nat
  /\ (charged is_make DirtyMatrix.Projection (perform a c)
      <= charged is_make DirtyMatrix.Projection c
         + (if is_configuration a then 1 else 0))%nat
  /\ (count_calls is_multiply (calls (perform a c))
      <= count_calls is_multiply (calls c)
         + (if is_viewProjection_read a then 1 else 0))%nat.
Proof.
  intros H. pose proof H as (Hf & _).
  assert (Hcons : forall n c',
             conserves n c c' ->
             (charged is_compose DirtyMatrix.World c'
              <= charged is_compose DirtyMatrix.World c + 0)%nat
             /\ (charged is_inverse DirtyMatrix.View c'
                 <= charged is_inverse DirtyMatrix.View c + 0)%nat
             /\ (charged is_make DirtyMatrix.Projection c'
                 <= charged is_make DirtyMatrix.Projection c + 0)%nat
             /\ (count_calls is_multiply (calls c')
                 <= count_calls is_multiply (calls c) + n)%nat).
  { intros n c' (H1 & H2 & H3 & H4). rewrite H1, H2, H3. conjs; lia. }
  destruct a as [m|s| |[]];
    cbn [perform access is_mutation is_configuration
         is_viewProjection_read].
  - destruct (mutate_effect m c)
      as (c' & -> & Hd & _ & _ & _ & _ & _ & Hc).
    destruct (raise_WorldView _ Hf) as (_ & HW & HV & _ & HP).
    cbn [after]. unfold charged, bit_set. rewrite Hd, HW, HV, HP, Hc.
    destruct (has DirtyMatrix.World (dirtyFlag c));
      destruct (has DirtyMatrix.View (dirtyFlag c)); conjs; lia.
  - destruct (configure_effect s c)
      as (c' & -> & Hd & _ & _ & _ & _ & _ & _ & Hc & _).
    destruct (raise_Projection _ Hf) as (_ & HW & HV & _ & HP).
    cbn [after]. unfold charged, bit_set. rewrite Hc.
    destruct (declares (subclass c) s); rewrite Hd.
    + rewrite HW, HV, HP.
      destruct (has DirtyMatrix.Projection (dirtyFlag c)); conjs; lia.
    + conjs; lia.
  - unfold charged, bit_set.
    change (dirtyFlag (after (set_dirty false c)))
      with (js_or (dirtyFlag c) 0).
    rewrite (raise_nothing _ Hf).
    change (calls (after (set_dirty false c))) with (calls c).
    conjs; lia.
  - apply (Hcons 0%nat), get_world_conserves, Hf.
  - apply (Hcons 0%nat), get_view_conserves, H.
  - apply (Hcons 0%nat), get_projection_conserves, Hf.
  - apply (Hcons 1%nat), get_viewProjection_conserves, H.
Qed.

Lemma run_charges (prog : list Action) (c : Camera) :
  coherent c ->
  (charged is_compose DirtyMatrix.World (run prog c)
   <= charged is_compose DirtyMatrix.World c
      + count_actions is_mutation prog)%nat
  /\ (charged is_inverse DirtyMatrix.View (run prog c)
      <= charged is_inverse DirtyMatrix.View c
         + count_actions is_mutation prog)%nat
  /\ (charged is_make DirtyMatrix.Projection (run prog c)
      <= charged is_make DirtyMatrix.Projection c
         + count_actions is_configuration prog)%nat
  /\ (count_calls is_multiply (calls (run prog c))
      <= count_calls is_multiply (calls c)
         + count_actions is_viewProjection_read prog)%nat.
Proof.
  revert c. induction prog as [|a prog IH]; intros c H.
  - unfold count_actions. cbn [run fold_left filter List.length].
    conjs; lia.
  - change (run (a :: prog) c) with (run prog (perform a c)).
    destruct (IH (perform a c) (coherent_perform a c H))
      as (I1 & I2 & I3 & I4).
    destruct (perform_charges a c H) as (P1 & P2 & P3 & P4).
    unfold count_actions in *. cbn [filter].
    destruct (is_mutation a); destruct (is_configuration a);
      destruct (is_viewProjection_read a); cbn [List.length];
      conjs; lia.
Qed.

(** X13.  The cache computes no more than it must.  Over any client
    program from any constructor, [compose] is called at most once more
    than there are transform mutations ([dirty = true] included), and so
    is [inverse]; [makePerspective] or [makeOrthographic] at most once
    more than there are projection-parameter writes; and [multiply] at
    most once per [viewProjection] read, however many reads of any kind
    the program makes. *)
Theorem cache_computes_at_most_once_per_change :
  forall (k : Construction) (prog : list Action),
    let done := calls (run prog (construct k)) in
    (count_calls is_compose done
     <= 1 + count_actions is_mutation prog)%nat
    /\ (count_calls is_inverse done
        <= 1 + count_actions is_mutation prog)%nat
    /\ (count_calls is_make done
        <= 1 + count_actions is_configuration prog)%nat
    /\ (count_calls is_multiply done
        <= count_actions is_viewProjection_read prog)%nat.
Proof.
  intros k prog done.
  destruct (run_charges prog (construct k) (coherent_construct k))
    as (H1 & H2 & H3 & H4).
  destruct has_All as (HW & HV & HP).
  assert (Hk : dirtyFlag (construct k) = DirtyMatrix.All
               /\ calls (construct k) = [])
    by (destruct k; split; reflexivity).
  destruct Hk as [Hd Hc].
  unfold charged, bit_set in *. rewrite Hd, Hc in *.
  rewrite HW in H1. rewrite HV in H2. rewrite HP in H3.
  fold done in H1, H2, H3, H4.
  unfold count_calls at 2 in H1. unfold count_calls at 2 in H2.
  unfold count_calls at 2 in H3. unfold count_calls at 2 in H4.
  cbn [filter List.length] in *.
  conjs; lia.
Qed.

End Properties.

(** ** The zoom scenarios over ideal numbers *)

Section IdealNumbers.

Local Open Scope R_scope.

#[local] Existing Instance Ideal.scalar.

(** The alternating series of [atan] brackets its value. *)
Lemma atan_series_bounds (x : R) (N : nat) :
  0 < x < 1 ->
  sum_f_R0 (tg_alt (Ratan_seq x)) (S (2 * N)) <= atan x
  <= sum_f_R0 (tg_alt (Ratan_seq x)) (2 * N).
Proof.
  intros Hx. rewrite atan_eq_ps_atan by exact Hx.
  unfold ps_atan. destruct (in_int x) as [h|h]; [|exfalso; apply h; lra].
  destruct (ps_atan_exists_1 x h) as [v Pv].
  apply alternated_series_ineq.
  - apply Ratan_seq_decreasing; lra.
  - apply Ratan_seq_converging; lra.
  - exact Pv.
Qed.

Lemma atan_half_bounds : 0.4636472 < atan (/ 2) < 0.4636493.
Proof.
  pose proof (atan_series_bounds (/ 2) 3 ltac:(lra)) as H.
  unfold sum_f_R0, tg_alt, Ratan_seq in H; simpl in H. lra.
Qed.

Lemma atan_third_bounds : 0.3217505 < atan (/ 3) < 0.3217506.
Proof.
  pose proof (atan_series_bounds (/ 3) 3 ltac:(lra)) as H.
  unfold sum_f_R0, tg_alt, Ratan_seq in H; simpl in H. lra.
Qed.

(** [2 atan(tan(45 deg) / 2)], in degrees. *)
Lemma narrowed_right_angle :
  53.13 < 2 * atan (tan (45 * PI / 180) / 2) * 180 / PI < 53.131.
Proof.
  replace (45 * PI / 180) with (PI / 4) by field.
  rewrite tan_PI4. replace (1 / 2) with (/ 2) by field.
  pose proof atan_half_bounds as Ha. pose proof atan_third_bounds as Hb.
  pose proof Machin_2_3 as HM.
  assert (Hpos : 0 < PI) by lra.
  set (a := atan (/ 2)) in *.
  assert (Hq : 2 * a * 180 / PI * PI = 2 * a * 180) by (field; lra).
  split; apply (Rmult_lt_reg_r PI); try exact Hpos; rewrite Hq; lra.
Qed.

(** C7.  [PerspectiveCamera.updateProjection] passes to
    [makePerspective] the field of view
    [ToDegrees(2 * atan(tan(ToRadians(fov) * 0.5) / zoom))] and the
    stored aspect, near and far as they are.  Over ideal numbers, a
    camera constructed with fov 90, aspect 1, near 0.1, far 100 and then
    given zoom 2 calls [makePerspective] with the field of view
    [2 atan(tan(45 deg) / 2)] in degrees, which lies between 53.13 and
    53.131 and so is not 45. *)
Theorem perspective_updateProjection_narrows_fov :
  (forall (num : Type) (SC : Scalar num) (ML : MathLib num)
          (c : Camera) (p : Perspective.fields num),
      subclass c = IsPerspectiveCamera p ->
      let fov :=
        ToDegrees
          (num_mul lit_2
             (Math_atan
                (num_div
                   (Math_tan
                      (num_mul (ToRadians (Perspective._fov p)) lit_0_5))
                   (Perspective._zoom p)))) in
      updateProjection c
      = Normal tt
          (record_call
             (Call_makePerspective fov (Perspective._aspect p)
                (Perspective._near p) (Perspective._far p))
             (with_projection
                (Matrix4_makePerspective fov (Perspective._aspect p)
                   (Perspective._near p) (Perspective._far p)) c)))
  /\ (forall ML : MathLib R,
        let c :=
          run (SC := Ideal.scalar) [Configure (Set_zoom 2)]
            (new_PerspectiveCamera (SC := Ideal.scalar)
               (Some 90) (Some 1) (Some (1 / 10)) (Some 100)) in
        let fov := 2 * atan (tan (45 * PI / 180) / 2) * 180 / PI in
        (exists c',
            get_projection c
            = Normal (Matrix4_makePerspective fov 1 (1 / 10) 100) c'
            /\ calls c' = [Call_makePerspective fov 1 (1 / 10) 100])
        /\ 53.13 < fov < 53.131
        /\ fov <> 45).
Proof.
  split.
  - intros num SC ML c p Hs fov.
    unfold updateProjection. rewrite Hs. reflexivity.
  - intros ML c fov.
    pose proof narrowed_right_angle as Hb. fold fov in Hb.
    split; [|split; [exact Hb | lra]].
    destruct (perspective_zoom_then_read (SC := Ideal.scalar)
                90 1 (1 / 10) 100 2) as (c' & Hg & Hc).
    assert (Hfov : effective_fov (SC := Ideal.scalar)
                     (Perspective.mk 90 1 (1 / 10) 100 2) = fov).
    { unfold effective_fov, fov.
      cbn [ToDegrees num_mul Math_atan num_div Math_tan ToRadians lit_2
           lit_0_5 Ideal.scalar Perspective._fov Perspective._zoom].
      replace (90 * PI / 180 * (5 / 10)) with (45 * PI / 180) by field.
      reflexivity. }
    rewrite Hfov in Hg, Hc. exists c'. split; assumption.
Qed.

(** C8.  [OrthographicCamera.updateProjection] passes to
    [makeOrthographic] each of left, right, top and bottom multiplied by
    zoom, and near and far as they are.  Over ideal numbers, a camera
    constructed with bounds (-1, 1, 1, -1) and then given zoom 2 calls
    [makeOrthographic] with bounds (-2, 2, 2, -2) and the default near
    and far. *)
Theorem orthographic_updateProjection_scales_bounds :
  (forall (num : Type) (SC : Scalar num) (ML : MathLib num)
          (c : Camera) (o : Orthographic.fields num),
      subclass c = IsOrthographicCamera o ->
      let zoom := Orthographic._zoom o in
      let l := num_mul (Orthographic._left o) zoom in
      let r := num_mul (Orthographic._right o) zoom in
      let t := num_mul (Orthographic._top o) zoom in
      let b := num_mul (Orthographic._bottom o) zoom in
      updateProjection c
      = Normal tt
          (record_call
             (Call_makeOrthographic l r t b (Orthographic._near o)
                (Orthographic._far o))
             (with_projection
                (Matrix4_makeOrthographic l r t b (Orthographic._near o)
                   (Orthographic._far o)) c)))
  /\ (forall ML : MathLib R,
        let c :=
          run (SC := Ideal.scalar) [Configure (Set_zoom 2)]
            (new_OrthographicCamera (SC := Ideal.scalar)
               (-1) 1 1 (-1) None None) in
        exists c',
          get_projection c
          = Normal
              (Matrix4_makeOrthographic (-2) 2 2 (-2) (1 / 10 ^ 6)
                 (10 ^ 27)) c'
          /\ calls c'
              = [Call_makeOrthographic (-2) 2 2 (-2) (1 / 10 ^ 6)
                   (10 ^ 27)]).
Proof.
  split.
  - intros num SC ML c o Hs zoom l r t b.
    unfold updateProjection. rewrite Hs. reflexivity.
  - intros ML c.
    destruct (orthographic_zoom_then_read (SC := Ideal.scalar)
                (-1) 1 1 (-1) 2) as (c' & Hg & Hc).
    cbn [num_mul lit_1e_6 lit_1e27 Ideal.scalar] in Hg, Hc.
    replace (-1 * 2) with (-2) in Hg, Hc by lra.
    replace (1 * 2) with 2 in Hg, Hc by lra.
    exists c'. split; assumption.
Qed.

(** ** What zoom does, over ideal numbers *)






End IdealNumbers.

(** * The draw command *)

Section DrawArraysProperties.

Import DrawArrays.

Context {num WebGLBuffer VertexLayout VertexInput ShaderProgram : Type}.
Context (zero : num).
Context (location : VertexInput -> num).
Context (inputs : ShaderProgram -> list VertexInput).


End DrawArraysProperties.

(** ** Runs over the free implementation *)

Section Runs.

Import Sym.

(** The first [world] read of a default camera. *)
Example default_world_read :
  outcome (get_world Demo.camera) = inl Midentity.
Proof. vm_compute. reflexivity. Qed.

(** [translate] then [view]: one [compose], one [inverse]. *)
Example translate_then_view :
  let c := run [Mutate (Do_translate (ML := Sym.lib) VUnitY (Lit 3 0));
                Access Get_view]
             Demo.perspective in
  _view c
  = Minverse
      (Mcompose
         (Vadd Vnew
            (Vscale
               (Vrot VUnitY (Qnew (Lit 0 0) (Lit 0 0) (Lit 0 0) (Lit 1 0)))
               (Lit 3 0)))
         (Qnew (Lit 0 0) (Lit 0 0) (Lit 0 0) (Lit 1 0)) VOne)
  /\ List.length (calls c) = 2%nat
  /\ dirtyFlag c = 4.
Proof. vm_compute. repeat split. Qed.

(** [viewProjection] on a default perspective camera. *)
Example perspective_viewProjection :
  let r := get_viewProjection Demo.perspective in
  outcome r
  = inl (Mmul (Minverse Midentity)
           (Mperspective
              (Deg (Mul (Lit 2 0)
                      (Atan (Div (Tan (Mul (Rad (Lit 50 0)) (Lit 5 (-1))))
                               (Lit 1 0)))))
              (Lit 1 0) (Lit 1 (-6)) (Lit 1 27)))
  /\ dirtyFlag (after r) = 0
  /\ List.length (calls (after r)) = 5%nat.
Proof. vm_compute. repeat split. Qed.

(** [viewProjection] on a base camera: the view matrix has been copied
    into the combined matrix when [projection] throws. *)
Example base_viewProjection :
  let r := get_viewProjection Demo.camera in
  outcome r = inr "Not Implemented"%string
  /\ _viewproj (after r) = Minverse Midentity
  /\ dirtyFlag (after r) = 4.
Proof. vm_compute. repeat split. Qed.

(** Zoom on an orthographic camera. *)
Example orthographic_zoom :
  outcome
    (get_projection
       (run [Configure (Set_zoom (Lit 2 0))] Demo.orthographic))
  = inl (Morthographic
           (Mul (Lit (-1) 0) (Lit 2 0)) (Mul (Lit 1 0) (Lit 2 0))
           (Mul (Lit 1 0) (Lit 2 0)) (Mul (Lit (-1) 0) (Lit 2 0))
           (Lit 1 (-6)) (Lit 1 27)).
Proof. vm_compute. reflexivity. Qed.

(** A perspective accessor on an orthographic camera touches nothing. *)
Example fov_on_orthographic :
  run [Configure (Set_fov (Lit 60 0))] Demo.orthographic
  = Demo.orthographic.
Proof. vm_compute. reflexivity. Qed.

End Runs.

(** ** The theorems at concrete instances *)

Section Witnesses.

Import Sym.

Lemma demo_masks :
  mask_ok (dirtyFlag Demo.camera)
  /\ mask_ok (dirtyFlag Demo.perspective)
  /\ mask_ok (dirtyFlag Demo.orthographic).
Proof. repeat split; vm_compute; discriminate. Qed.

Lemma world_read_witness :
  Sym.compose Vnew (Qnew (Lit 0 0) (Lit 0 0) (Lit 0 0) (Lit 1 0)) VOne
  = Midentity
  /\ returned (get_world (construct (SC := Sym.scalar) New_Camera))
     = Some Midentity.
Proof.
  split; [reflexivity|].
  destruct (proj2 (world_read_composes_current_transform
                     (SC := Sym.scalar) (ML := Sym.lib)) New_Camera)
    as (_ & _ & _ & _ & _ & H).
  apply H. reflexivity.
Defined.

Lemma view_read_witness :
  exists w c1 c2,
    get_world Demo.perspective = Normal w c1
    /\ get_view Demo.perspective = Normal (Minverse w) c2
    /\ w = Midentity.
Proof.
  destruct (proj1 (view_read_inverts_validated_world
                     (SC := Sym.scalar) (ML := Sym.lib))
              Demo.perspective)
    as (w & c1 & c2 & Hg & HW & _ & Hv & _).
  - apply demo_masks.
  - left. vm_compute. reflexivity.
  - exists w, c1, c2. split; [exact Hg|]. split; [exact Hv|].
    apply HW. vm_compute. reflexivity.
Defined.

Lemma viewProjection_entry_witness :
  (exists c',
      get_viewProjection Demo.orthographic
      = Normal
          (Mmul (Minverse Midentity)
             (Morthographic
                (Mul (Lit (-1) 0) (Lit 1 0)) (Mul (Lit 1 0) (Lit 1 0))
                (Mul (Lit 1 0) (Lit 1 0)) (Mul (Lit (-1) 0) (Lit 1 0))
                (Lit 1 (-6)) (Lit 1 27)))
          c'
      /\ count_multiply (calls c') = 1%nat)
  /\ (let c := run [Access Get_viewProjection] Demo.orthographic in
      get_viewProjection c = Normal (_viewproj c) c)
  /\ (exists v p,
        returned (get_view Demo.orthographic) = Some v
        /\ returned (get_projection (after (get_view Demo.orthographic)))
           = Some p).
Proof.
  split; [|split].
  - destruct (proj1 (proj2 (viewProjection_tests_mask_on_entry
                              (SC := Sym.scalar) Demo.orthographic
                              (proj2 (proj2 demo_masks))))
                (Minverse Midentity)
                (Morthographic
                   (Mul (Lit (-1) 0) (Lit 1 0)) (Mul (Lit 1 0) (Lit 1 0))
                   (Mul (Lit 1 0) (Lit 1 0)) (Mul (Lit (-1) 0) (Lit 1 0))
                   (Lit 1 (-6)) (Lit 1 27)))
      as (c' & Hg & _ & Hn & _).
    + left. vm_compute. reflexivity.
    + vm_compute. reflexivity.
    + vm_compute. reflexivity.
    + exists c'. split; [exact Hg | exact Hn].
  - intros c.
    apply (viewProjection_tests_mask_on_entry (SC := Sym.scalar) c).
    + vm_compute. split; discriminate.
    + vm_compute. reflexivity.
    + vm_compute. reflexivity.
    + vm_compute. reflexivity.
  - apply (viewProjection_tests_mask_on_entry (SC := Sym.scalar)
             Demo.orthographic (proj2 (proj2 demo_masks))).
    discriminate.
Defined.

Lemma partition_witness :
  (exists c',
      mutate (Do_rotate (ML := Sym.lib) VUnitY (Lit 1 0)) Demo.perspective
      = Normal tt c'
      /\ bit_set DirtyMatrix.Projection c'
         = bit_set DirtyMatrix.Projection Demo.perspective)
  /\ (let c := run [Access Get_viewProjection] Demo.perspective in
      exists c',
        configure (Set_zoom (Lit 2 0)) c = Normal tt c'
        /\ dirtyFlag c' = 4
        /\ outcome (get_view c') = outcome (get_view c)).
Proof.
  split.
  - destruct (proj1 (mutators_and_setters_partition_the_mask
                       (SC := Sym.scalar) Demo.perspective
                       (proj1 (proj2 demo_masks)))
                (Do_rotate (ML := Sym.lib) VUnitY (Lit 1 0)))
      as (c' & Hm & _ & _ & _ & HP & _).
    exists c'. split; [exact Hm | exact HP].
  - intros c.
    assert (Hf : mask_ok (dirtyFlag c)) by (vm_compute; split; discriminate).
    destruct (proj2 (mutators_and_setters_partition_the_mask
                       (SC := Sym.scalar) c Hf) (Set_zoom (Lit 2 0)))
      as (c' & Hc & Hd & _ & _ & _ & Hv).
    exists c'. split; [exact Hc|]. split; [|exact Hv].
    destruct (Hd eq_refl) as [-> _]. vm_compute. reflexivity.
Defined.

Lemma second_read_witness :
  exists m c',
    get_viewProjection Demo.perspective = Normal m c'
    /\ get_viewProjection c' = Normal m c'.
Proof.
  destruct (viewProjection_second_read_is_cached (SC := Sym.scalar)
              Demo.perspective (proj1 (proj2 demo_masks)))
    as (m & c' & Hg & _ & _ & _ & Hg').
  - discriminate.
  - exists m, c'. split; [exact Hg | exact Hg'].
Defined.

Lemma base_read_witness :
  get_projection Demo.camera = Throw "Not Implemented"%string Demo.camera
  /\ exists c',
       get_viewProjection Demo.camera = Throw "Not Implemented"%string c'
       /\ _projection c' = Mnew.
Proof.
  destruct (proj1 (proj2 (base_updateProjection_is_not_implemented
                            (SC := Sym.scalar) (ML := Sym.lib)))
              Demo.camera eq_refl)
    as (_ & Hp & Hvp).
  split.
  - apply Hp. vm_compute. reflexivity.
  - apply Hvp.
    + apply demo_masks.
    + vm_compute. reflexivity.
Defined.

Lemma perspective_update_witness :
  exists c',
    updateProjection Demo.perspective = Normal tt c'
    /\ _projection c'
       = Mperspective
           (Deg (Mul (Lit 2 0)
                   (Atan (Div (Tan (Mul (Rad (Lit 50 0)) (Lit 5 (-1))))
                            (Lit 1 0)))))
           (Lit 1 0) (Lit 1 (-6)) (Lit 1 27).
Proof.
  eexists. split.
  - apply (proj1 perspective_updateProjection_narrows_fov
             Sym.num Sym.scalar Sym.lib Demo.perspective).
    reflexivity.
  - reflexivity.
Defined.

Lemma orthographic_update_witness :
  exists c',
    updateProjection Demo.orthographic = Normal tt c'
    /\ _projection c'
       = Morthographic
           (Mul (Lit (-1) 0) (Lit 1 0)) (Mul (Lit 1 0) (Lit 1 0))
           (Mul (Lit 1 0) (Lit 1 0)) (Mul (Lit (-1) 0) (Lit 1 0))
           (Lit 1 (-6)) (Lit 1 27).
Proof.
  eexists. split.
  - apply (proj1 orthographic_updateProjection_scales_bounds
             Sym.num Sym.scalar Sym.lib Demo.orthographic).
    reflexivity.
  - reflexivity.
Defined.

Lemma dirty_setter_witness :
  set_dirty false Demo.orthographic = Normal tt Demo.orthographic.
Proof.
  apply (dirty_setter_forces_world_and_view Demo.orthographic).
  apply demo_masks.
Defined.

Lemma projection_failure_witness :
  get_projection Demo.camera
  = Throw "Not Implemented"%string Demo.camera
  /\ bit_set DirtyMatrix.Projection (after (get_projection Demo.camera))
     = true.
Proof.
  destruct (projection_read_failure_keeps_state (SC := Sym.scalar)
              Demo.camera Demo.camera "Not Implemented"%string)
    as (Hg & HP & _).
  - vm_compute. reflexivity.
  - reflexivity.
  - split; [exact Hg | exact HP].
Defined.

(** ** Instances of the further properties *)

Lemma writes_witness :
  calls (run Demo.writes Demo.perspective) = []
  /\ _viewproj (run Demo.writes Demo.perspective) = Mnew.
Proof.
  destruct (proj2 (writes_compute_nothing (SC := Sym.scalar) Demo.writes
                     eq_refl)
              (New_PerspectiveCamera None None None None))
    as (Hc & _ & _ & _ & Hvp).
  split; [exact Hc | exact Hvp].
Defined.

Lemma mask_witness :
  0 <= dirtyFlag (run [Access Get_view] Demo.perspective) <= 7
  /\ (0 <? dirtyFlag (run [Access Get_view] Demo.perspective)) = true.
Proof.
  destruct (mask_invariant (SC := Sym.scalar)
              (New_PerspectiveCamera None None None None)
              [Access Get_view]) as (Hf & Hpos & _).
  split; [exact Hf|]. apply Hpos. right. right. vm_compute. reflexivity.
Defined.

Lemma idempotent_read_witness :
  get_view (after (get_view Demo.perspective))
  = Normal (Minverse Midentity) (after (get_view Demo.perspective)).
Proof.
  apply (reads_are_idempotent (SC := Sym.scalar) Get_view Demo.perspective).
  - apply demo_masks.
  - vm_compute. reflexivity.
Defined.

Lemma mutation_witness :
  returned
    (get_world
       (after
          (mutate (Do_translate (ML := Sym.lib) VUnitY (Lit 2 0))
             Demo.camera)))
  = Some
      (Mcompose
         (Vadd Vnew
            (Vscale
               (Vrot VUnitY (Qnew (Lit 0 0) (Lit 0 0) (Lit 0 0) (Lit 1 0)))
               (Lit 2 0)))
         (Qnew (Lit 0 0) (Lit 0 0) (Lit 0 0) (Lit 1 0)) VOne).
Proof.
  destruct (mutation_shows_at_next_read
              (Do_translate (ML := Sym.lib) VUnitY (Lit 2 0)) Demo.camera
              (proj1 demo_masks)) as (_ & _ & Hw & _).
  exact Hw.
Defined.


Lemma setters_swap_witness :
  after
    (configure (Set_far (Lit 9 0))
       (after (configure (Set_near (Lit 1 0)) Demo.orthographic)))
  = after
      (configure (Set_near (Lit 1 0))
         (after (configure (Set_far (Lit 9 0)) Demo.orthographic))).
Proof.
  apply (setters_compose (Set_near (Lit 1 0))
           (Set_far (Lit 9 0)) Demo.orthographic
           (proj2 (proj2 demo_masks))).
  intros H. discriminate H.
Defined.


Lemma failed_read_witness :
  exists v c',
    get_viewProjection Demo.camera = Throw "Not Implemented"%string c'
    /\ _viewproj c' = v
    /\ bit_set DirtyMatrix.Projection c' = true.
Proof.
  destruct (failed_viewProjection_is_not_undone (SC := Sym.scalar)
              Demo.camera (proj1 demo_masks) eq_refl)
    as (v & c2 & c' & _ & _ & Hg & Hvp & _ & _ & HP & _).
  - vm_compute. reflexivity.
  - exists v, c'. split; [exact Hg|]. split; [exact Hvp | exact HP].
Defined.

Lemma current_parameters_witness :
  returned (get_projection (run Demo.writes Demo.perspective))
  = Some
      (Mperspective
         (Deg (Mul (Lit 2 0)
                 (Atan (Div (Tan (Mul (Rad (Lit 50 0)) (Lit 5 (-1))))
                          (Lit 2 0)))))
         (Lit 1 0) (Lit 1 (-6)) (Lit 1 27)).
Proof.
  apply (proj1 (projection_read_builds_from_current_parameters
                  (SC := Sym.scalar)
                  (New_PerspectiveCamera None None None None) Demo.writes)
           (Perspective.mk (Lit 50 0) (Lit 1 0) (Lit 1 (-6)) (Lit 1 27)
              (Lit 2 0))).
  reflexivity.
Defined.

Lemma fresh_combined_witness :
  returned
    (get_viewProjection
       (run [Access Get_viewProjection;
             Mutate (Do_translate (ML := Sym.lib) VUnitY (Lit 1 0))]
          Demo.orthographic))
  = Some
      (Mmul
         (Minverse
            (Mcompose
               (Vadd Vnew
                  (Vscale
                     (Vrot VUnitY
                        (Qnew (Lit 0 0) (Lit 0 0) (Lit 0 0) (Lit 1 0)))
                     (Lit 1 0)))
               (Qnew (Lit 0 0) (Lit 0 0) (Lit 0 0) (Lit 1 0)) VOne))
         (Morthographic
            (Mul (Lit (-1) 0) (Lit 1 0)) (Mul (Lit 1 0) (Lit 1 0))
            (Mul (Lit 1 0) (Lit 1 0)) (Mul (Lit (-1) 0) (Lit 1 0))
            (Lit 1 (-6)) (Lit 1 27))).
Proof.
  apply (viewProjection_is_fresh_when_read_alone (SC := Sym.scalar)
           (New_OrthographicCamera (Lit (-1) 0) (Lit 1 0) (Lit 1 0)
              (Lit (-1) 0) None None)
           [Access Get_viewProjection;
            Mutate (Do_translate (ML := Sym.lib) VUnitY (Lit 1 0))]).
  - reflexivity.
  - reflexivity.
Defined.



End Witnesses.
